(** * AQI dashboard: the recommendation client, the dataset loader and the
      aggregation helpers of [app.py], embedded and verified.

    The Python source is one Streamlit script.  Its logic lives in
    - [get_ai_recommendation] (lines 13-39): a retrying HTTP client,
    - [load_data] (lines 48-78): fetch, normalise and de-duplicate a table,
    - the page code (lines 84-227): filters, means and pollutant counts.

    Python values are modelled by an inductive type, exceptions by an
    explicit result type, and the outside world (HTTP transport, the clock)
    by a scripted transport together with a log of the calls made. *)

From Stdlib Require Import ZArith QArith Qcanon Ascii String Sorted.
From stdpp Require Import base tactics option list strings gmap numbers pretty.

Set Warnings "-register-all".

Open Scope string_scope.
Open Scope list_scope.
Open Scope Z_scope.

(** ** Python values *)

(** Values that a TOML secret or a decoded JSON body can hold. A [dict] keeps
    its items in insertion order; keys are unique after decoding. Floats are
    represented by the rational they denote. *)
Inductive pyval : Type :=
  | PNone
  | PBool (b : bool)
  | PInt (n : Z)
  | PFloat (q : Qc)
  | PStr (s : string)
  | PList (l : list pyval)
  | PDict (d : list (string * pyval)).

(** [bool(v)], as used by [not v], [if v] and [v and w]. *)
Definition truthy (v : pyval) : bool :=
  match v with
  | PNone => false
  | PBool b => b
  | PInt n => negb (n =? 0)
  | PFloat q => negb (Qeq_bool q 0)
  | PStr s => negb (String.eqb s "")
  | PList l => match l with [] => false | _ => true end
  | PDict d => match d with [] => false | _ => true end
  end.

(** [type(v).__name__] *)
Definition type_name (v : pyval) : string :=
  match v with
  | PNone => "NoneType"
  | PBool _ => "bool"
  | PInt _ => "int"
  | PFloat _ => "float"
  | PStr _ => "str"
  | PList _ => "list"
  | PDict _ => "dict"
  end.

(** ** Exceptions *)

(** The classes that matter to the two handlers of the script.
    [RequestException] stands for [requests.exceptions.RequestException] and
    every subclass of it ([ConnectionError], [Timeout], [HTTPError], ...).
    All classes derive from [Exception]. *)
Inductive exn_class : Type :=
  | KeyError
  | AttributeError
  | TypeError
  | IndexError
  | ValueError
  | RequestException
  | OtherException.

(** An exception with the text that [str(e)] (hence [f"{e}"]) gives. *)
Record exn : Type := Exn { exn_cls : exn_class; exn_str : string }.

Inductive res (A : Type) : Type :=
  | Ok (a : A)
  | Raise (e : exn).
Arguments Ok {A} a.
Arguments Raise {A} e.

#[global] Instance exn_class_eq_dec : EqDecision exn_class.
Proof. solve_decision. Defined.

(** ** Operations on values used by the response check *)

Fixpoint assoc (k : string) (d : list (string * pyval)) : option pyval :=
  match d with
  | [] => None
  | (k', v) :: d' => if String.eqb k k' then Some v else assoc k d'
  end.

(** [v.get(k)]: only a [dict] has the method. *)
Definition py_get (v : pyval) (k : string) : res pyval :=
  match v with
  | PDict d => Ok (default PNone (assoc k d))
  | _ => Raise (Exn AttributeError
                  ("'" +:+ type_name v +:+ "' object has no attribute 'get'"))
  end.

(** [v[k]] for a string key [k]. *)
Definition py_item (v : pyval) (k : string) : res pyval :=
  match v with
  | PDict d =>
      match assoc k d with
      | Some x => Ok x
      | None => Raise (Exn KeyError ("'" +:+ k +:+ "'"))
      end
  | PList _ =>
      Raise (Exn TypeError "list indices must be integers or slices, not str")
  | PStr _ =>
      Raise (Exn TypeError "string indices must be integers, not 'str'")
  | _ =>
      Raise (Exn TypeError ("'" +:+ type_name v +:+ "' object is not subscriptable"))
  end.

(** [v[0]]. The keys of a decoded JSON object are strings, so the integer
    key [0] is never found in a [dict]. *)
Definition py_item0 (v : pyval) : res pyval :=
  match v with
  | PList (x :: _) => Ok x
  | PList [] => Raise (Exn IndexError "list index out of range")
  | PStr (String c _) => Ok (PStr (String c ""))
  | PStr "" => Raise (Exn IndexError "string index out of range")
  | PDict _ => Raise (Exn KeyError "0")
  | _ =>
      Raise (Exn TypeError ("'" +:+ type_name v +:+ "' object is not subscriptable"))
  end.

(** ** The error monad and the effect monad *)

#[global] Instance res_ret : MRet res := fun _ a => Ok a.
#[global] Instance res_bind : MBind res :=
  fun _ _ f r => match r with Ok a => f a | Raise e => Raise e end.

(** What the client does to the outside world, in order. The request body is
    [json.dumps(payload)]; the log keeps the payload itself. The URL is the
    fixed endpoint followed by [?key=] and the credential. *)
Record api_url : Type := ApiUrl { endpoint : string; key_param : pyval }.

Inductive event : Type :=
  | Post (url : api_url) (payload : pyval)
  | Sleep (seconds : Z).

(** The part of a [requests.Response] the client reads: the status code and
    what [response.json()] gives (a decoded body, or the exception raised by
    the decoder). *)
Record response : Type := Response { status_code : Z; json : res pyval }.

(** A scripted transport: the outcome of the [n]-th call of [requests.post]
    (counting from 0), which either raises or delivers a response. *)
Definition transport : Type := nat -> api_url -> pyval -> res response.

Definition is_post (ev : event) : bool :=
  match ev with Post _ _ => true | Sleep _ => false end.

Definition posts (log : list event) : nat := length (filter is_post log).

Definition sleeps (log : list event) : list Z :=
  omap (fun ev => match ev with Sleep s => Some s | Post _ _ => None end) log.

(** Computations that log their effects and may raise. *)
Definition M (A : Type) : Type := list event -> res A * list event.

#[global] Instance M_ret : MRet M := fun _ a log => (Ok a, log).
#[global] Instance M_bind : MBind M :=
  fun _ _ f m log =>
    match m log with
    | (Ok a, log') => f a log'
    | (Raise e, log') => (Raise e, log')
    end.

Definition lift {A : Type} (r : res A) : M A := fun log => (r, log).

Definition requests_post (tr : transport) (url : api_url) (payload : pyval)
  : M response :=
  fun log => (tr (posts log) url payload, log ++ [Post url payload]).

Definition time_sleep (seconds : Z) : M unit :=
  fun log => (Ok tt, log ++ [Sleep seconds]).

(** ** [get_ai_recommendation] (lines 13-39) *)

Definition MSG_NO_KEY : string :=
  "API key not set. Please configure your Gemini API key.".
Definition MSG_NOT_GENERATED : string :=
  "Sorry, the recommendation could not be generated. Please try again.".
Definition MSG_EXHAUSTED : string :=
  "Sorry, I couldn't generate a recommendation at this time. Please try again later.".
Definition MSG_ERROR_PREFIX : string :=
  "Sorry, an error occurred while generating the recommendation: ".

Definition GEMINI_ENDPOINT : string :=
  "https://generativelanguage.googleapis.com/v1beta/models/gemini-2.5-flash-preview-05-20:generateContent".

Definition concise_prompt (prompt : string) : string :=
  prompt +:+ " Respond in 5-10 short sentences only. and last line should be a summary highlighting the key points., summary should be first and then the detailed explanation , use bullet points for detailed explanation, both summary and detailed explanation should be in markdown format.".

(** [{"contents": [{"role": "user", "parts": [{"text": concise_prompt}]}]}] *)
Definition payload_of (prompt : string) : pyval :=
  PDict [("contents",
          PList [PDict [("role", PStr "user");
                        ("parts", PList [PDict [("text", PStr (concise_prompt prompt))]])]])].

(** [a and b]: [b] is evaluated only when [a] is truthy. *)
Definition py_and (a b : res pyval) : res pyval :=
  x ← a; if truthy x then b else Ok x.

(** Lines 31-34, on the decoded body [result]. *)
Definition shape_ok (result : pyval) : res pyval :=
  py_and (py_get result "candidates")
    (py_and (c ← py_item result "candidates"; c0 ← py_item0 c; py_get c0 "content")
            (c ← py_item result "candidates"; c0 ← py_item0 c;
             content ← py_item c0 "content"; py_get content "parts")).

Definition recommendation_of (result : pyval) : res pyval :=
  ok ← shape_ok result;
  if truthy ok then
    c ← py_item result "candidates"; c0 ← py_item0 c;
    content ← py_item c0 "content"; parts ← py_item content "parts";
    p0 ← py_item0 parts; py_item p0 "text"
  else Ok (PStr MSG_NOT_GENERATED).

(** The loop of lines 27-37. [remaining] is the loop variant [3 - retries]:
    the guard [retries < 3] holds exactly when it is not zero
    (lemma [while_retries_guard] below). *)
Fixpoint while_retries (tr : transport) (url : api_url) (payload : pyval)
    (remaining : nat) (retries : Z) : M pyval :=
  match remaining with
  | O => mret (PStr MSG_EXHAUSTED)
  | S remaining' =>
      response ← requests_post tr url payload;
      if status_code response =? 200 then
        result ← lift (json response);
        lift (recommendation_of result)
      else
        let retries := retries + 1 in
        _ ← time_sleep (2 ^ retries);
        while_retries tr url payload remaining' retries
  end.

(** The body of the [try] block. *)
Definition try_body (GEMINI_API_KEY : pyval) (tr : transport) (prompt : string)
  : M pyval :=
  let apiUrl := ApiUrl GEMINI_ENDPOINT GEMINI_API_KEY in
  let payload := payload_of prompt in
  let retries := 0 in
  while_retries tr apiUrl payload (Z.to_nat (3 - retries)) retries.

(** The function: the value returned, and the log of what it did. *)
Definition get_ai_recommendation (GEMINI_API_KEY : pyval) (tr : transport)
    (prompt : string) : pyval * list event :=
  if negb (truthy GEMINI_API_KEY) then (PStr MSG_NO_KEY, [])
  else
    match try_body GEMINI_API_KEY tr prompt [] with
    | (Ok v, log) => (v, log)
    | (Raise e, log) => (PStr (MSG_ERROR_PREFIX +:+ exn_str e), log)
    end.

(** ** Tables *)

(** A cell of a [DataFrame]: missing ([NaN], [None], [NaT]), a string, a
    number, or a calendar date (after [pd.to_datetime]). *)
Inductive cell : Type :=
  | CNull
  | CStr (s : string)
  | CNum (q : Qc)
  | CDate (year month day : Z).

#[global] Instance cell_eq_dec : EqDecision cell.
Proof. solve_decision. Defined.

(** A table, row-major: the column labels and, per row, one cell per label. *)
Record frame : Type := Frame { columns : list string; rows : list (list cell) }.

(** [pd.DataFrame()] *)
Definition empty_frame : frame := Frame [] [].

(** Positions of the columns carrying label [name]. *)
Fixpoint positions_from (i : nat) (name : string) (cols : list string) : list nat :=
  match cols with
  | [] => []
  | c :: cols' =>
      if String.eqb c name then i :: positions_from (S i) name cols'
      else positions_from (S i) name cols'
  end.

Definition positions (name : string) (cols : list string) : list nat :=
  positions_from 0 name cols.

(** ** Strings: characters are code points below 256 *)

Definition code (c : ascii) : Z := Z.of_N (Ascii.N_of_ascii c).

(** [str.lower] on one character: A-Z and the Latin-1 capitals. *)
Definition lower_char (c : ascii) : ascii :=
  let n := code c in
  if ((65 <=? n) && (n <=? 90)) || ((192 <=? n) && (n <=? 222) && negb (n =? 215))
  then Ascii.ascii_of_N (Z.to_N (n + 32))
  else c.

Fixpoint str_lower (s : string) : string :=
  match s with
  | EmptyString => EmptyString
  | String c s' => String (lower_char c) (str_lower s')
  end.

(** [str.isspace] on one character. *)
Definition is_space (c : ascii) : bool :=
  let n := code c in
  ((9 <=? n) && (n <=? 13)) || ((28 <=? n) && (n <=? 32)) || (n =? 133) || (n =? 160).

(** [s.split(sep)] for a one-character separator. *)
Fixpoint str_split (sep : ascii) (s : string) : list string :=
  match s with
  | EmptyString => [EmptyString]
  | String c s' =>
      if Ascii.eqb c sep then EmptyString :: str_split sep s'
      else match str_split sep s' with
           | p :: ps => String c p :: ps
           | [] => [String c EmptyString]
           end
  end.

Fixpoint lstrip (s : string) : string :=
  match s with
  | EmptyString => EmptyString
  | String c s' => if is_space c then lstrip s' else s
  end.

Fixpoint rstrip (s : string) : string :=
  match s with
  | EmptyString => EmptyString
  | String c s' =>
      match rstrip s' with
      | EmptyString => if is_space c then EmptyString else String c EmptyString
      | r => String c r
      end
  end.

(** [s.strip()] *)
Definition str_strip (s : string) : string := rstrip (lstrip s).

(** ** Dates in the format [%d-%m-%Y] *)

Definition digit (c : ascii) : option Z :=
  let n := code c in
  if (48 <=? n) && (n <=? 57) then Some (n - 48) else None.

(** [%d]: [3[0-1]|[1-2]\d|0[1-9]|[1-9]| [1-9]] *)
Definition parse_day (s : string) : option Z :=
  match s with
  | String a EmptyString =>
      d ← digit a; if 1 <=? d then Some d else None
  | String a (String b EmptyString) =>
      d ← digit b;
      if Ascii.eqb a " "%char then (if 1 <=? d then Some d else None)
      else
        t ← digit a;
        if (t =? 0) && (1 <=? d) then Some d
        else if (t =? 1) || (t =? 2) then Some (10 * t + d)
        else if (t =? 3) && (d <=? 1) then Some (30 + d)
        else None
  | _ => None
  end.

(** [%m]: [1[0-2]|0[1-9]|[1-9]] *)
Definition parse_month (s : string) : option Z :=
  match s with
  | String a EmptyString =>
      d ← digit a; if 1 <=? d then Some d else None
  | String a (String b EmptyString) =>
      t ← digit a; d ← digit b;
      if (t =? 0) && (1 <=? d) then Some d
      else if (t =? 1) && (d <=? 2) then Some (10 + d)
      else None
  | _ => None
  end.

(** [%Y]: [\d\d\d\d] *)
Definition parse_year (s : string) : option Z :=
  match s with
  | String a (String b (String c (String d EmptyString))) =>
      a ← digit a; b ← digit b; c ← digit c; d ← digit d;
      Some (1000 * a + 100 * b + 10 * c + d)
  | _ => None
  end.

Definition is_leap (y : Z) : bool :=
  ((y mod 4 =? 0) && negb (y mod 100 =? 0)) || (y mod 400 =? 0).

Definition days_in_month (y m : Z) : Z :=
  if m =? 2 then (if is_leap y then 29 else 28)
  else if (m =? 4) || (m =? 6) || (m =? 9) || (m =? 11) then 30
  else 31.

(** [a <= b] for dates given as year, month, day. *)
Definition date_leb (a b : Z * Z * Z) : bool :=
  let '(y, m, d) := a in
  let '(y', m', d') := b in
  (y <? y') || ((y =? y') && ((m <? m') || ((m =? m') && (d <=? d')))).

(** The days that a [datetime64[ns]] column can hold at midnight: from
    1677-09-22 to 2262-04-11 ([Timestamp.min] is 1677-09-21 00:12:43). The
    script's [resample('M')] is the spelling of pandas before 3.0, where
    [pd.to_datetime] gives nanoseconds. *)
Definition in_timestamp_range (y m d : Z) : bool :=
  date_leb (1677, 9, 22) (y, m, d) && date_leb (y, m, d) (2262, 4, 11).

(** The fields of a string that line 70 turns into a date: it matches
    [%d-%m-%Y] in full, names a day of the calendar, and that day is in the
    range of a nanosecond timestamp. *)
Definition strptime (s : string) : option (Z * Z * Z) :=
  match str_split "-"%char s with
  | [ds; ms; ys] =>
      d ← parse_day ds; m ← parse_month ms; y ← parse_year ys;
      if (d <=? days_in_month y m) && in_timestamp_range y m d
      then Some (y, m, d) else None
  | _ => None
  end.

(** The strings that [pd.to_datetime] reads as a missing date, whatever the
    format: the empty string and the members of pandas' [nat_strings]. *)
Definition is_nat_string (s : string) : bool :=
  existsb (String.eqb s) [""; "NaT"; "nat"; "NAT"; "nan"; "NaN"; "NAN"].
Arguments is_nat_string : simpl never.

(** ** [load_data] (lines 48-78) *)

Definition DATA_URL : string :=
  "https://huggingface.co/datasets/manaspateltech/AQI/resolve/main/aqi.csv".

(** What [load_data] reads of the response to its GET: the status line, the
    final URL (after redirects) and the outcome of
    [pd.read_csv(io.StringIO(response.text))]. *)
Record get_response : Type :=
  GetResponse { get_status : Z; get_reason : string; get_url : string;
                read_csv : res frame }.

(** [response.raise_for_status()]: an [HTTPError] for 4xx and 5xx. *)
Definition raise_for_status (r : get_response) : res unit :=
  let st := get_status r in
  if (400 <=? st) && (st <? 500) then
    Raise (Exn RequestException
             (pretty st +:+ " Client Error: " +:+ get_reason r +:+ " for url: " +:+ get_url r))
  else if (500 <=? st) && (st <? 600) then
    Raise (Exn RequestException
             (pretty st +:+ " Server Error: " +:+ get_reason r +:+ " for url: " +:+ get_url r))
  else Ok tt.

(** Keep the entries of [xs] whose mask bit is set. *)
Fixpoint select {A : Type} (mask : list bool) (xs : list A) : list A :=
  match mask, xs with
  | b :: mask', x :: xs' => if b then x :: select mask' xs' else select mask' xs'
  | _, _ => []
  end.

Definition mem (x : string) (l : list string) : bool :=
  existsb (String.eqb x) l.

(** The double quote, and plain labels written as a Python list
    ([['note', 'unit']]) or as a NumPy array ([['note' 'unit']]). *)
Definition dquote : string := String "034"%char EmptyString.

Definition repr_labels (sep : string) (labels : list string) : string :=
  "[" +:+ String.concat sep (map (fun l => "'" +:+ l +:+ "'") labels) +:+ "]".

(** [df.drop(columns=labels)]: every column with one of the labels goes; a
    label that names no column is a [KeyError]. Its argument lists the
    labels not found, or, when two columns share a label, all the labels
    asked for, as an array. [str] of a [KeyError] is the [repr] of its
    argument, here in double quotes as the text holds single ones. *)
Definition df_drop (labels : list string) (df : frame) : res frame :=
  match List.filter (fun l => negb (mem l (columns df))) labels with
  | [] =>
      let mask := map (fun c => negb (mem c labels)) (columns df) in
      Ok (Frame (select mask (columns df)) (map (select mask) (rows df)))
  | missing =>
      Raise (Exn KeyError
               (dquote
                +:+ (if bool_decide (NoDup (columns df)) then repr_labels ", " missing
                     else repr_labels " " labels)
                +:+ " not found in axis" +:+ dquote))
  end.

(** [pd.to_datetime(..., format='%d-%m-%Y')] on one value: a missing value
    stays missing, and so does a string that pandas reads as missing; any
    other string must match the format and be in range, a number never
    does. The exception is a [ValueError] (or its subclass for a date out
    of range); its text varies with the version of pandas, is used nowhere
    in the script and is given in outline only. *)
Definition to_datetime (c : cell) : res cell :=
  match c with
  | CNull => Ok CNull
  | CDate y m d => Ok (CDate y m d)
  | CStr s =>
      if is_nat_string s then Ok CNull
      else
        match strptime s with
        | Some (y, m, d) => Ok (CDate y m d)
        | None => Raise (Exn ValueError ("time data " +:+ s +:+ " doesn't match format %d-%m-%Y"))
        end
  | CNum _ => Raise (Exn ValueError "time data doesn't match format %d-%m-%Y")
  end.

Fixpoint map_res {A B : Type} (f : A -> res B) (l : list A) : res (list B) :=
  match l with
  | [] => Ok []
  | x :: l' => y ← f x; ys ← map_res f l'; Ok (y :: ys)
  end.

(** [df['date'] = pd.to_datetime(df['date'], format='%d-%m-%Y')]. Without a
    [date] column the lookup is a [KeyError]; with several, [df['date']] is
    a table and [pd.to_datetime] rejects it. *)
Definition convert_dates (df : frame) : res frame :=
  match positions "date" (columns df) with
  | [] => Raise (Exn KeyError "'date'")
  | [i] =>
      rows' ← map_res (fun row =>
                 match row !! i with
                 | Some c => c' ← to_datetime c; Ok (<[i := c']> row)
                 | None => Ok row
                 end) (rows df);
      Ok (Frame (columns df) rows')
  | _ => Raise (Exn ValueError "to assemble mappings requires at least that [year, month, day] be specified")
  end.

(** [df.drop_duplicates()]: of rows equal in every column the first stays. *)
Fixpoint drop_duplicates_from (seen : list (list cell)) (rs : list (list cell))
  : list (list cell) :=
  match rs with
  | [] => []
  | r :: rs' =>
      if bool_decide (r ∈ seen) then drop_duplicates_from seen rs'
      else r :: drop_duplicates_from (r :: seen) rs'
  end.

Definition drop_duplicates (df : frame) : frame :=
  Frame (columns df) (drop_duplicates_from [] (rows df)).

(** The [try] block, lines 57-75. [fetch] is the outcome of
    [requests.get(DATA_URL)]. *)
Definition load_data_try (fetch : res get_response) : res frame :=
  response ← fetch;
  _ ← raise_for_status response;
  df ← read_csv response;
  let df := Frame (map str_lower (columns df)) (rows df) in
  df ← df_drop ["note"; "unit"] df;
  df ← convert_dates df;
  Ok (drop_duplicates df).

(** How a call of [load_data] ends: it returns a table, possibly after
    showing a notice with [st.error], or an exception leaves the function. *)
Inductive load_outcome : Type :=
  | Returned (df : frame) (notice : option string)
  | Propagated (e : exn).

Definition load_data (fetch : res get_response) : load_outcome :=
  match load_data_try fetch with
  | Ok df => Returned df None
  | Raise e =>
      if decide (exn_cls e = RequestException)
      then Returned empty_frame (Some ("Error loading data from URL: " +:+ exn_str e))
      else Propagated e
  end.

(** ** Aggregation (page code, lines 116-133 and 175-193) *)

(** [df[name]] as a series. A label carried by several columns selects a
    table instead, on which the steps below fail; it is outside the model. *)
Definition series (name : string) (df : frame) : res (list cell) :=
  match positions name (columns df) with
  | [] => Raise (Exn KeyError ("'" +:+ name +:+ "'"))
  | [i] => Ok (map (fun row => default CNull (row !! i)) (rows df))
  | _ => Raise (Exn ValueError "cannot reindex on an axis with duplicate labels")
  end.

(** [c == v] for the value [v] of a select box: a string, or [None] when
    the box has no options. A missing cell equals nothing. *)
Definition cell_is (v : option string) (c : cell) : bool :=
  match c, v with
  | CStr s, Some t => String.eqb s t
  | _, _ => false
  end.

(** [df[df[name] == v]] *)
Definition where_eq (name : string) (v : option string) (df : frame) : res frame :=
  col ← series name df;
  Ok (Frame (columns df) (select (map (cell_is v) col) (rows df))).

(** A Python float: not-a-number, or the real it stands for (rounding is
    not modelled). *)
Inductive pyfloat : Type :=
  | NaN
  | Real (q : Qc).

(** The numbers of a series, missing values skipped; text cannot be
    averaged. *)
Fixpoint numbers_of (s : list cell) : res (list Qc) :=
  match s with
  | [] => Ok []
  | CNull :: s' => numbers_of s'
  | CNum q :: s' => qs ← numbers_of s'; Ok (q :: qs)
  | _ :: _ => Raise (Exn TypeError "Could not convert to numeric")
  end.

(** [Series.mean()]: the sum over the count, [NaN] when nothing is counted.
    Values are exact here: the rounding, the overflow and the infinities of
    float arithmetic are not represented, so nothing below relies on the
    value of a mean that is not [NaN] by lack of values. *)
Definition series_mean (s : list cell) : res pyfloat :=
  qs ← numbers_of s;
  match qs with
  | [] => Ok NaN
  | _ => Ok (Real (foldr Qcplus (Q2Qc 0) qs / Q2Qc (inject_Z (Z.of_nat (length qs))))%Qc)
  end.

(** Lines 175-176: [area_df = df[df['area'] == area]] and
    [avg_aqi_area = area_df['aqi_value'].mean()]. *)
Definition avg_aqi_area (df : frame) (area : option string) : res pyfloat :=
  area_df ← where_eq "area" area df;
  col ← series "aqi_value" area_df;
  series_mean col.

(** [df.dropna(subset=[name])] *)
Definition dropna (name : string) (df : frame) : res frame :=
  col ← series name df;
  Ok (Frame (columns df)
        (select (map (fun c => negb (bool_decide (c = CNull))) col) (rows df))).

(** [.str.split(',')] on one value: text is cut at every comma, anything
    else becomes missing. *)
Definition split_cell (c : cell) : option (list string) :=
  match c with
  | CStr s => Some (str_split ","%char s)
  | _ => None
  end.

(** [explode]: one entry per list element; a missing value or an empty list
    gives one missing entry. *)
Definition explode (l : list (option (list string))) : list (option string) :=
  concat (map (fun v => match v with
                        | Some (p :: ps) => map Some (p :: ps)
                        | _ => [None]
                        end) l).

(** [value_counts()]: how often each value occurs, missing values left out.
    The result is kept as a mapping; the display order is not modelled. *)
Definition value_counts (s : list (option string)) : gmap string nat :=
  foldl (fun (m : gmap string nat) v =>
           match v with
           | Some t => <[t := S (default 0%nat (m !! t))]> m
           | None => m
           end) ∅ s.

(** Whether a column has the [object] dtype, which [read_csv] gives to
    text, or another one (numeric, datetime). *)
Inductive dtype : Type :=
  | ObjectDtype
  | OtherDtype.

Definition is_text (c : cell) : bool := match c with CStr _ => true | _ => false end.
Definition is_number (c : cell) : bool := match c with CNum _ => true | _ => false end.
Definition is_date (c : cell) : bool := match c with CDate _ _ _ => true | _ => false end.

(** Values that make an [object] array on which [.str] is allowed (pandas
    infers them as empty, string or mixed): none at all, or a string among
    them, or numbers together with dates. Missing values do not count. *)
Definition object_values (values : list cell) : bool :=
  match values with
  | [] => true
  | _ => existsb is_text values || (existsb is_number values && existsb is_date values)
  end.

(** The dtype of a column: [object] when it is empty or holds such values
    (for a column read by [read_csv]: when it holds a string), a numeric or
    datetime dtype when it holds nothing but numbers, or nothing but dates,
    and missing values. *)
Definition column_dtype (col : list cell) : dtype :=
  if object_values col then ObjectDtype else OtherDtype.

(** [series.str], for a series of dtype [dt] without missing values: the
    accessor is there on an [object] series that is empty or holds a string
    (alone or among other values) or values of mixed kinds; on any other
    series it raises. *)
Definition str_accessor (dt : dtype) (values : list cell) : res unit :=
  match dt with
  | ObjectDtype =>
      if object_values values then Ok tt
      else Raise (Exn AttributeError "Can only use .str accessor with string values!")
  | OtherDtype =>
      Raise (Exn AttributeError "Can only use .str accessor with string values!")
  end.

(** Lines 128-133 (and 188-193): the pollutant counts of a row set whose
    [prominent_pollutants] column has dtype [dt]. A row set cut from a
    table keeps the dtype of the table's column, whatever rows are left.
    Only the [prominent_pollutants] column of the exploded table is
    counted, so the pipeline is followed on that column. *)
Definition pollutants_with (dt : dtype) (state_df : frame) : res (gmap string nat) :=
  state_pollutant_df ← dropna "prominent_pollutants" state_df;
  col ← series "prominent_pollutants" state_pollutant_df;
  _ ← str_accessor dt col;
  let exploded := explode (map split_cell col) in
  let stripped := map (fmap str_strip) exploded in
  Ok (value_counts stripped).

(** The same on a table whose column has the dtype its own cells give it:
    the table as it was loaded, or a row set of it that still holds a value
    of the kind that decides the dtype. *)
Definition pollutants (state_df : frame) : res (gmap string nat) :=
  col ← series "prominent_pollutants" state_df;
  pollutants_with (column_dtype col) state_df.

(** ** Sample inputs *)

(** A transport that gives the same outcome to every call. *)
Definition always (r : res response) : transport := fun _ _ _ => r.

(** A decoded body of the expected shape, except that the first part has no
    [text] field: [{"candidates": [{"content": {"parts": [{}]}}]}]. *)
Definition body_without_text : pyval :=
  PDict [("candidates", PList [PDict [("content", PDict [("parts", PList [PDict []])])]])].

(** ** What the claims say, in their own words *)

(** The reading of "a transport exception is retried up to the budget":
    when every call of the transport raises, three attempts are made and the
    terminal string is returned. *)
Definition transport_exceptions_are_retried : Prop :=
  forall (key : pyval) (tr : transport) (prompt : string),
    truthy key = true ->
    (forall n url payload, exists e, tr n url payload = Raise e) ->
    fst (get_ai_recommendation key tr prompt) = PStr MSG_EXHAUSTED /\
    posts (snd (get_ai_recommendation key tr prompt)) = 3%nat.

(** The tokens a pollutant cell stands for: the comma-separated pieces of a
    string, each trimmed; a cell that is not a string has none. *)
Definition tokens_of (c : cell) : list string :=
  match c with
  | CStr s => map str_strip (str_split ","%char s)
  | _ => []
  end.

(** How often token [t] is listed in a column. *)
Definition occurrences (t : string) (col : list cell) : nat :=
  length (List.filter (String.eqb t) (concat (map tokens_of col))).

Fixpoint str_all (P : ascii -> bool) (s : string) : bool :=
  match s with
  | EmptyString => true
  | String c s' => P c && str_all P s'
  end.





(** ** Further definitions: the rest of the page code, and test oracles *)

(** Line 87: [df['aqi_value'].mean()], the figure of the overview page. *)
Definition overall_mean (df : frame) : res pyfloat :=
  col ← series "aqi_value" df;
  series_mean col.

(** What [convert_dates] does to one row, the date being at position [i]. *)
Definition convert_row (i : nat) (row : list cell) : res (list cell) :=
  match row !! i with
  | Some c => c' ← to_datetime c; Ok (<[i := c']> row)
  | None => Ok row
  end.

(** A table as [read_csv] builds it: every row has one cell per column. *)
Definition well_formed (df : frame) : Prop :=
  Forall (fun row => length row = length (columns df)) (rows df).

(** The text that [strftime('%d-%m-%Y')] writes, with the day and the month
    either padded to two digits or not. *)
Definition digit_char (n : Z) : ascii := Ascii.ascii_of_N (Z.to_N (48 + n)).

Definition show2 (pad : bool) (n : Z) : string :=
  if (n <? 10) && negb pad then String (digit_char n) EmptyString
  else String (digit_char (n / 10)) (String (digit_char (n mod 10)) EmptyString).

Definition show4 (n : Z) : string :=
  String (digit_char (n / 1000))
    (String (digit_char (n / 100 mod 10))
       (String (digit_char (n / 10 mod 10))
          (String (digit_char (n mod 10)) EmptyString))).

Definition format_dmy (pad_day pad_month : bool) (y m d : Z) : string :=
  show2 pad_day d +:+ "-" +:+ show2 pad_month m +:+ "-" +:+ show4 y.

(** How often the separator occurs in a string. *)
Fixpoint count_char (sep : ascii) (s : string) : nat :=
  match s with
  | EmptyString => O
  | String c s' => if Ascii.eqb c sep then S (count_char sep s') else count_char sep s'
  end.

(** ** The select boxes (lines 113-116 and 172-175) *)

(** A value that is not missing. *)
Inductive value : Type :=
  | VStr (s : string)
  | VNum (q : Qc)
  | VDate (year month day : Z).

#[global] Instance value_eq_dec : EqDecision value.
Proof. solve_decision. Defined.

Definition value_of (c : cell) : option value :=
  match c with
  | CNull => None
  | CStr s => Some (VStr s)
  | CNum q => Some (VNum q)
  | CDate y m d => Some (VDate y m d)
  end.

(** [Series.unique()]: the values in the order of their first appearance. *)
Fixpoint unique_from (seen l : list value) : list value :=
  match l with
  | [] => []
  | x :: l' =>
      if bool_decide (x ∈ seen) then unique_from seen l'
      else x :: unique_from (x :: seen) l'
  end.

(** [a < b] in Python: strings by code points, numbers and dates by size;
    values of different kinds do not compare. *)
Definition value_lt (a b : value) : res bool :=
  match a, b with
  | VStr s, VStr t =>
      Ok (match String.compare s t with Lt => true | _ => false end)
  | VNum p, VNum q => Ok (bool_decide (p < q)%Qc)
  | VDate y m d, VDate y' m' d' =>
      Ok ((y <? y') || ((y =? y') && ((m <? m') || ((m =? m') && (d <? d')))))
  | _, _ => Raise (Exn TypeError "'<' not supported between instances of different types")
  end.

(** [sorted(l)] for pairwise distinct values, as [unique()] gives them: the
    increasing arrangement, found by insertion; the comparison of two
    values of different kinds raises, as it does in Python's own sort. *)
Fixpoint insert_sorted (x : value) (l : list value) : res (list value) :=
  match l with
  | [] => Ok [x]
  | y :: l' =>
      b ← value_lt x y;
      if (b : bool) then Ok (x :: y :: l')
      else rest ← insert_sorted x l'; Ok (y :: rest)
  end.

Fixpoint sorted (l : list value) : res (list value) :=
  match l with
  | [] => Ok []
  | x :: l' => s ← sorted l'; insert_sorted x s
  end.

(** [sorted(df[name].dropna().unique())]: the options of a select box. *)
Definition options (name : string) (df : frame) : res (list value) :=
  col ← series name df;
  sorted (unique_from [] (omap value_of col)).

(** * Theorems *)

(** ** The recommendation client *)

Section Client.
Variable tr : transport.
Variable url : api_url.
Variable payload : pyval.

(** The recursion argument of [while_retries] is the loop variant: at
    [remaining = 3 - retries] one unfolding is one pass through
    [while retries < 3: ...]. *)
Lemma while_retries_guard (retries : Z) :
  while_retries tr url payload (Z.to_nat (3 - retries)) retries
  = if retries <? 3 then
      response ← requests_post tr url payload;
      if status_code response =? 200 then
        result ← lift (json response);
        lift (recommendation_of result)
      else
        _ ← time_sleep (2 ^ (retries + 1));
        while_retries tr url payload (Z.to_nat (3 - (retries + 1))) (retries + 1)
    else mret (PStr MSG_EXHAUSTED).
Proof.
  destruct (retries <? 3) eqn:Hlt.
  - apply Z.ltb_lt in Hlt.
    replace (Z.to_nat (3 - retries)) with (S (Z.to_nat (3 - (retries + 1)))) by lia.
    reflexivity.
  - apply Z.ltb_ge in Hlt.
    replace (Z.to_nat (3 - retries)) with O by lia.
    reflexivity.
Qed.

Lemma while_retries_raise (remaining : nat) (retries : Z) (log : list event) (e : exn) :
  tr (posts log) url payload = Raise e ->
  while_retries tr url payload (S remaining) retries log
  = (Raise e, log ++ [Post url payload]).
Proof.
  intros Htr. cbn [while_retries].
  unfold mbind, M_bind, requests_post. now rewrite Htr.
Qed.

Lemma while_retries_again (remaining : nat) (retries : Z) (log : list event) (r : response) :
  tr (posts log) url payload = Ok r ->
  status_code r <> 200 ->
  while_retries tr url payload (S remaining) retries log
  = while_retries tr url payload remaining (retries + 1)
      (log ++ [Post url payload; Sleep (2 ^ (retries + 1))]).
Proof.
  intros Htr Hst. cbn [while_retries].
  unfold mbind, M_bind, requests_post, time_sleep. rewrite Htr.
  apply Z.eqb_neq in Hst. rewrite Hst.
  now rewrite <- app_assoc.
Qed.

Lemma while_retries_ok (remaining : nat) (retries : Z) (log : list event) (r : response) :
  tr (posts log) url payload = Ok r ->
  status_code r = 200 ->
  while_retries tr url payload (S remaining) retries log
  = (result ← json r; recommendation_of result, log ++ [Post url payload]).
Proof.
  intros Htr Hst. cbn [while_retries].
  unfold mbind at 1. unfold M_bind, requests_post. rewrite Htr.
  apply Z.eqb_eq in Hst. rewrite Hst.
  unfold mbind at 1. unfold lift. destruct (json r); reflexivity.
Qed.
End Client.

(** C5. When the credential is absent ([None]), every call returns the
    fixed configuration-error string at once: the log of effects is empty,
    so no HTTP call was made and no sleep was taken. *)
Theorem absent_key_short_circuits (tr : transport) (prompt : string) :
  get_ai_recommendation PNone tr prompt = (PStr MSG_NO_KEY, []) /\
  posts (snd (get_ai_recommendation PNone tr prompt)) = 0%nat /\
  sleeps (snd (get_ai_recommendation PNone tr prompt)) = [].
Proof. repeat split. Qed.

(** C10. A credential that is present but falsy (the empty string, [0],
    [False], an empty list or table) is treated exactly like an absent one:
    the same configuration-error string, with no HTTP call made. *)
Theorem falsy_key_short_circuits (key : pyval) (tr : transport) (prompt : string) :
  truthy key = false ->
  get_ai_recommendation key tr prompt = get_ai_recommendation PNone tr prompt /\
  get_ai_recommendation key tr prompt = (PStr MSG_NO_KEY, []) /\
  posts (snd (get_ai_recommendation key tr prompt)) = 0%nat.
Proof.
  intros Hkey. unfold get_ai_recommendation. rewrite Hkey. repeat split.
Qed.

Lemma falsy_key_short_circuits_witness :
  truthy (PStr "") = false /\
  get_ai_recommendation (PStr "") (always (Ok (Response 200 (Ok PNone)))) "which purifier?"
  = (PStr MSG_NO_KEY, []).
Proof.
  split; [reflexivity |].
  apply (falsy_key_short_circuits (PStr "") (always (Ok (Response 200 (Ok PNone))))
           "which purifier?").
  reflexivity.
Defined.

(** C3. With a credential set and every POST answered by a status other
    than 200, the client makes exactly three attempts, sleeps 2 seconds
    before the second and 4 seconds before the third (and 8 after it), then
    returns the fixed terminal failure string. There is no fourth attempt
    and nothing is raised. *)
Theorem three_attempts_then_terminal (key : pyval) (tr : transport) (prompt : string) :
  truthy key = true ->
  (forall n url payload, exists r, tr n url payload = Ok r /\ status_code r <> 200) ->
  let url := ApiUrl GEMINI_ENDPOINT key in
  let payload := payload_of prompt in
  get_ai_recommendation key tr prompt
  = (PStr MSG_EXHAUSTED,
     [Post url payload; Sleep 2; Post url payload; Sleep 4; Post url payload; Sleep 8]) /\
  posts (snd (get_ai_recommendation key tr prompt)) = 3%nat /\
  sleeps (snd (get_ai_recommendation key tr prompt)) = [2; 4; 8].
Proof.
  intros Hkey Htr url payload.
  assert (Hrun : get_ai_recommendation key tr prompt
    = (PStr MSG_EXHAUSTED,
       [Post url payload; Sleep 2; Post url payload; Sleep 4; Post url payload; Sleep 8])).
  { unfold get_ai_recommendation, try_body. rewrite Hkey. cbn [negb].
    change (Z.to_nat (3 - 0)) with 3%nat. fold url payload.
    destruct (Htr (posts []) url payload) as (r0 & H0 & S0).
    rewrite (while_retries_again _ _ _ _ _ _ r0 H0 S0).
    destruct (Htr (posts ([] ++ [Post url payload; Sleep (2 ^ (0 + 1))])) url payload)
      as (r1 & H1 & S1).
    rewrite (while_retries_again _ _ _ _ _ _ r1 H1 S1).
    match goal with |- context [while_retries _ _ _ 1 _ ?l] =>
      destruct (Htr (posts l) url payload) as (r2 & H2 & S2) end.
    rewrite (while_retries_again _ _ _ _ _ _ r2 H2 S2).
    reflexivity. }
  rewrite Hrun. repeat split.
Qed.

Lemma three_attempts_then_terminal_witness :
  let tr := always (Ok (Response 503 (Raise (Exn OtherException "no body")))) in
  let url := ApiUrl GEMINI_ENDPOINT (PStr "k") in
  let payload := payload_of "which purifier?" in
  get_ai_recommendation (PStr "k") tr "which purifier?"
  = (PStr MSG_EXHAUSTED,
     [Post url payload; Sleep 2; Post url payload; Sleep 4; Post url payload; Sleep 8]).
Proof.
  intros tr url payload.
  apply (three_attempts_then_terminal (PStr "k") tr "which purifier?").
  - reflexivity.
  - intros n u p. eexists. split; [reflexivity | simpl; lia].
Defined.

(** C1, as stated, fails: the [try] encloses the whole loop, so the first
    transport exception ends the call. With a transport that always raises
    there is one attempt, not three, and the string returned is the one of
    the [except] branch. *)
Lemma transport_exception_is_not_retried :
  ~ transport_exceptions_are_retried.
Proof.
  intros H.
  destruct (H (PStr "k") (always (Raise (Exn RequestException "connection refused")))
              "which purifier?") as [_ Hposts].
  - reflexivity.
  - intros n url payload. eexists. reflexivity.
  - vm_compute in Hposts. discriminate.
Qed.

(** Use a hypothesis that the pending call raises to finish the loop. *)
Ltac raise_now H :=
  match goal with
  | |- context [while_retries ?tr ?url ?payload (S ?rem) ?retries ?l] =>
      rewrite (while_retries_raise tr url payload rem retries l _ H)
  end.

(** C1, amended. With a credential set, a transport exception raised at
    attempt [k + 1] (the [k] attempts before it answered by a status other
    than 200) is not retried: the client returns at once the string that
    describes the error, having made [k + 1] calls and slept [2, 4, ...]
    seconds between them, and raises nothing. *)
Theorem transport_exception_ends_the_call
    (key : pyval) (tr : transport) (prompt : string) (k : nat) (e : exn) :
  truthy key = true ->
  (k < 3)%nat ->
  (forall n url payload, (n < k)%nat ->
     exists r, tr n url payload = Ok r /\ status_code r <> 200) ->
  tr k (ApiUrl GEMINI_ENDPOINT key) (payload_of prompt) = Raise e ->
  fst (get_ai_recommendation key tr prompt) = PStr (MSG_ERROR_PREFIX +:+ exn_str e) /\
  posts (snd (get_ai_recommendation key tr prompt)) = S k /\
  sleeps (snd (get_ai_recommendation key tr prompt)) = map (fun i => 2 ^ Z.of_nat i) (seq 1 k).
Proof.
  intros Hkey Hk Hbefore Hraise.
  unfold get_ai_recommendation, try_body. rewrite Hkey. cbn [negb].
  change (Z.to_nat (3 - 0)) with 3%nat.
  set (url := ApiUrl GEMINI_ENDPOINT key) in *.
  set (payload := payload_of prompt) in *.
  destruct k as [|[|[|k]]]; [| | | lia].
  - rewrite (while_retries_raise tr url payload _ _ [] e Hraise).
    repeat split.
  - destruct (Hbefore 0%nat url payload) as (r0 & H0 & S0); [lia |].
    rewrite (while_retries_again tr url payload _ _ [] r0 H0 S0).
    raise_now Hraise. repeat split.
  - destruct (Hbefore 0%nat url payload) as (r0 & H0 & S0); [lia |].
    rewrite (while_retries_again tr url payload _ _ [] r0 H0 S0).
    destruct (Hbefore 1%nat url payload) as (r1 & H1 & S1); [lia |].
    match goal with |- context [while_retries _ _ _ _ _ ?l] =>
      rewrite (while_retries_again tr url payload _ _ l r1 H1 S1) end.
    raise_now Hraise. repeat split.
Qed.

Lemma transport_exception_ends_the_call_witness :
  let tr := fun n (_ : api_url) (_ : pyval) =>
              match n with
              | O => Ok (Response 500 (Ok PNone))
              | _ => Raise (Exn RequestException "connection reset")
              end in
  fst (get_ai_recommendation (PStr "k") tr "which purifier?")
  = PStr (MSG_ERROR_PREFIX +:+ "connection reset") /\
  posts (snd (get_ai_recommendation (PStr "k") tr "which purifier?")) = 2%nat /\
  sleeps (snd (get_ai_recommendation (PStr "k") tr "which purifier?")) = [2].
Proof.
  intros tr.
  apply (transport_exception_ends_the_call (PStr "k") tr "which purifier?" 1
           (Exn RequestException "connection reset")).
  - reflexivity.
  - lia.
  - intros n url payload Hn. assert (n = 0%nat) as -> by lia.
    eexists. split; [reflexivity | simpl; lia].
  - reflexivity.
Defined.

(** C4 at the failing input. A 200 response whose body has [candidates],
    [content] and [parts] but no [text] in the first part passes the check
    of line 31; line 32 then raises [KeyError('text')], and the call returns
    the string of the [except] branch, not the fixed "could not be
    generated" string. One attempt is made and nothing is raised. *)
Theorem missing_text_is_reported_as_error :
  let tr := always (Ok (Response 200 (Ok body_without_text))) in
  recommendation_of body_without_text = Raise (Exn KeyError "'text'") /\
  fst (get_ai_recommendation (PStr "k") tr "which purifier?")
  = PStr "Sorry, an error occurred while generating the recommendation: 'text'" /\
  fst (get_ai_recommendation (PStr "k") tr "which purifier?") <> PStr MSG_NOT_GENERATED /\
  posts (snd (get_ai_recommendation (PStr "k") tr "which purifier?")) = 1%nat /\
  sleeps (snd (get_ai_recommendation (PStr "k") tr "which purifier?")) = [].
Proof.
  intros tr. repeat split. vm_compute. discriminate.
Qed.

(** A 200 response ends the call at the first attempt, whatever the check
    of its body gives: the text, the fixed string, or an exception that the
    handler turns into a string. *)
Lemma first_200_ends_the_call (key : pyval) (tr : transport) (prompt : string)
    (r : response) :
  truthy key = true ->
  tr 0%nat (ApiUrl GEMINI_ENDPOINT key) (payload_of prompt) = Ok r ->
  status_code r = 200 ->
  get_ai_recommendation key tr prompt
  = (match result ← json r; recommendation_of result with
     | Ok v => v
     | Raise e => PStr (MSG_ERROR_PREFIX +:+ exn_str e)
     end,
     [Post (ApiUrl GEMINI_ENDPOINT key) (payload_of prompt)]).
Proof.
  intros Hkey Htr Hst.
  unfold get_ai_recommendation, try_body. rewrite Hkey. cbn [negb].
  change (Z.to_nat (3 - 0)) with 3%nat.
  rewrite (while_retries_ok tr _ _ _ _ [] r Htr Hst).
  destruct (json r ≫= _); reflexivity.
Qed.

(** The part of C4 that the code does meet: a 200 response whose body is an
    object in which [candidates], the first candidate's [content] or its
    [parts] is absent gives the fixed string after one attempt. *)
Lemma absent_field_gives_fixed_string (result : pyval) :
  match result with
  | PDict d =>
      match assoc "candidates" d with
      | None => True
      | Some (PList (PDict c :: _)) =>
          match assoc "content" c with
          | None => True
          | Some (PDict ct) => assoc "parts" ct = None
          | Some _ => False
          end
      | Some _ => False
      end
  | _ => False
  end ->
  recommendation_of result = Ok (PStr MSG_NOT_GENERATED).
Proof.
  destruct result as [| | | | | |d]; try contradiction.
  unfold recommendation_of, shape_ok, py_and. cbn [py_get py_item mbind res_bind].
  destruct (assoc "candidates" d) as [[| | | | |[|[| | | | | |c] l]|]|]; try contradiction;
    [| reflexivity].
  cbn.
  destruct (assoc "content" c) as [[| | | | | |ct]|]; try contradiction; [| reflexivity].
  cbn. intros ->. destruct ct; reflexivity.
Qed.

(** ** The loader *)

Lemma mem_true (x : string) (l : list string) : mem x l = true <-> x ∈ l.
Proof.
  unfold mem. rewrite existsb_exists. split.
  - intros (y & Hy & Heq). apply String.eqb_eq in Heq. subst.
    now apply list_elem_of_In.
  - intros Hx. exists x. split; [now apply list_elem_of_In | apply String.eqb_refl].
Qed.

Lemma select_map_elem {A : Type} (f : A -> bool) (x : A) (xs : list A) :
  x ∈ select (map f xs) xs -> f x = true /\ x ∈ xs.
Proof.
  induction xs as [|y xs IH]; cbn.
  - intros H. inversion H.
  - destruct (f y) eqn:Hy.
    + intros H. apply elem_of_cons in H as [-> | H].
      * split; [assumption | left].
      * destruct (IH H). split; [assumption | now right].
    + intros H. destruct (IH H). split; [assumption | now right].
Qed.

(** After a successful [drop], none of the labels names a column. *)
Lemma df_drop_columns (labels : list string) (df df' : frame) (l : string) :
  df_drop labels df = Ok df' -> l ∈ labels -> l ∉ columns df'.
Proof.
  unfold df_drop.
  destruct (List.filter _ labels); [| discriminate].
  intros [= <-] Hl Hin. cbn in Hin.
  apply (select_map_elem (fun c => negb (mem c labels))) in Hin as [Hneg _].
  apply negb_true_iff in Hneg.
  apply mem_true in Hl. congruence.
Qed.


Lemma convert_dates_columns (df df' : frame) :
  convert_dates df = Ok df' -> columns df' = columns df.
Proof.
  unfold convert_dates.
  destruct (positions "date" (columns df)) as [|i [|j js]]; try discriminate.
  destruct (map_res _ (rows df)); cbn; [| discriminate].
  now intros [= <-].
Qed.

Lemma drop_duplicates_from_spec (seen rs : list (list cell)) :
  NoDup (drop_duplicates_from seen rs) /\
  forall r, r ∈ drop_duplicates_from seen rs -> (r ∉ seen) /\ r ∈ rs.
Proof.
  revert seen. induction rs as [|r rs IH]; intros seen; cbn.
  - split; [constructor | intros r H; inversion H].
  - case_bool_decide as Hseen.
    + destruct (IH seen) as [Hnd Hin]. split; [assumption |].
      intros r' Hr'. destruct (Hin r' Hr'). split; [assumption | now right].
    + destruct (IH (r :: seen)) as [Hnd Hin]. split.
      * constructor; [| assumption].
        intros Hr. destruct (Hin r Hr) as [Hnot _]. apply Hnot. left.
      * intros r' Hr'. apply elem_of_cons in Hr' as [-> | Hr'].
        -- split; [assumption | left].
        -- destruct (Hin r' Hr') as [Hnot Hrs]. split; [| now right].
           intros Hs. apply Hnot. now right.
Qed.

(** The first of equal rows stays: every row of the input is still there. *)
Lemma drop_duplicates_from_keeps (seen rs : list (list cell)) (r : list cell) :
  r ∈ rs -> r ∉ seen -> r ∈ drop_duplicates_from seen rs.
Proof.
  revert seen. induction rs as [|r0 rs IH]; intros seen Hin Hnot; cbn.
  - inversion Hin.
  - case_bool_decide as Hseen.
    + apply elem_of_cons in Hin as [-> | Hin]; [contradiction | now apply IH].
    + destruct (decide (r = r0)) as [-> | Hne]; [left |].
      right. apply elem_of_cons in Hin as [-> | Hin]; [contradiction |].
      apply IH; [assumption |].
      intros Hs. apply elem_of_cons in Hs as [-> | Hs]; contradiction.
Qed.

(** C8. Whenever [load_data] returns a table, no two of its rows are equal
    in all columns, and it has neither a [note] nor a [unit] column. *)
Theorem load_data_no_duplicates_no_note_unit
    (fetch : res get_response) (df : frame) (notice : option string) :
  load_data fetch = Returned df notice ->
  NoDup (rows df) /\ ("note" ∉ columns df) /\ ("unit" ∉ columns df).
Proof.
  unfold load_data.
  destruct (load_data_try fetch) as [df0 | e] eqn:Htry.
  - intros [= <- <-].
    unfold load_data_try in Htry.
    destruct fetch as [r | e]; cbn in Htry; [| discriminate].
    destruct (raise_for_status r); cbn in Htry; [| discriminate].
    destruct (read_csv r) as [raw | e]; cbn in Htry; [| discriminate].
    destruct (df_drop _ _) as [d1 | e] eqn:Hdrop; cbn in Htry; [| discriminate].
    destruct (convert_dates d1) as [d2 | e] eqn:Hconv; cbn in Htry; [| discriminate].
    injection Htry as <-. cbn.
    rewrite (convert_dates_columns _ _ Hconv).
    split; [apply drop_duplicates_from_spec |].
    split; apply (df_drop_columns _ _ _ _ Hdrop); set_solver.
  - destruct (decide _); [| discriminate].
    intros [= <- <-]. cbn.
    split; [constructor | split; apply not_elem_of_nil].
Qed.

Lemma load_data_no_duplicates_no_note_unit_witness :
  let raw := Frame ["Date"; "State"; "AQI_Value"; "Note"; "Unit"]
               [[CStr "01-02-2023"; CStr "Delhi"; CNum (Q2Qc 100); CNull; CStr "ug/m3"];
                [CStr "01-02-2023"; CStr "Delhi"; CNum (Q2Qc 100); CStr "n"; CStr "ug/m3"];
                [CStr "1-2-2023"; CStr "Delhi"; CNum (Q2Qc 100); CNull; CNull]] in
  let df := Frame ["date"; "state"; "aqi_value"]
              [[CDate 2023 2 1; CStr "Delhi"; CNum (Q2Qc 100)]] in
  load_data (Ok (GetResponse 200 "OK" DATA_URL (Ok raw))) = Returned df None /\
  NoDup (rows df) /\ ("note" ∉ columns df) /\ ("unit" ∉ columns df).
Proof.
  intros raw df.
  assert (H : load_data (Ok (GetResponse 200 "OK" DATA_URL (Ok raw))) = Returned df None)
    by (vm_compute; reflexivity).
  split; [exact H |].
  exact (load_data_no_duplicates_no_note_unit _ df None H).
Defined.





Lemma raise_for_status_good (r : get_response) :
  ~ 400 <= get_status r < 600 -> raise_for_status r = Ok tt.
Proof.
  intros Hst. unfold raise_for_status.
  destruct ((400 <=? get_status r) && (get_status r <? 500)) eqn:H4; [lia |].
  destruct ((500 <=? get_status r) && (get_status r <? 600)) eqn:H5; [lia |].
  reflexivity.
Qed.



(** ** Aggregation *)

Lemma select_none {A B : Type} (f : B -> bool) (g : A -> B) (xs : list A) :
  (forall x, x ∈ xs -> f (g x) = false) ->
  select (map f (map g xs)) xs = [].
Proof.
  induction xs as [|x xs IH]; intros H; cbn; [reflexivity |].
  rewrite (H x) by left. apply IH. intros y Hy. apply H. now right.
Qed.

Lemma map_select {A B : Type} (f : B -> bool) (g : A -> B) (xs : list A) :
  map g (select (map f (map g xs)) xs) = List.filter f (map g xs).
Proof.
  induction xs as [|x xs IH]; cbn; [reflexivity |].
  destruct (f (g x)); cbn; now rewrite IH.
Qed.

(** C9. The mean of an empty series is [NaN], and it is returned, not
    raised: when no row of the table is in the selected area, the subset
    [area_df] has no rows and [avg_aqi_area] is [NaN]. *)
Theorem mean_of_empty_subset_is_nan (df : frame) (area : option string) (i j : nat) :
  positions "area" (columns df) = [i] ->
  positions "aqi_value" (columns df) = [j] ->
  (forall row, row ∈ rows df -> cell_is area (default CNull (row !! i)) = false) ->
  series_mean [] = Ok NaN /\
  where_eq "area" area df = Ok (Frame (columns df) []) /\
  avg_aqi_area df area = Ok NaN.
Proof.
  intros Harea Haqi Hnone.
  assert (Hwhere : where_eq "area" area df = Ok (Frame (columns df) [])).
  { unfold where_eq, series. rewrite Harea. cbn.
    now rewrite (select_none (cell_is area) (fun row => default CNull (row !! i))). }
  repeat split; [exact Hwhere |].
  unfold avg_aqi_area. rewrite Hwhere.
  unfold series. cbn [mbind res_bind columns rows]. rewrite Haqi. reflexivity.
Qed.

Lemma mean_of_empty_subset_is_nan_witness :
  let df := Frame ["date"; "state"; "area"; "aqi_value"]
              [[CDate 2023 2 1; CStr "Delhi"; CStr "Rohini"; CNum (Q2Qc 180)];
               [CDate 2023 2 2; CStr "Delhi"; CNull; CNum (Q2Qc 90)]] in
  avg_aqi_area df (Some "Dwarka") = Ok NaN /\ avg_aqi_area df None = Ok NaN.
Proof.
  intros df. split.
  - apply (mean_of_empty_subset_is_nan df (Some "Dwarka") 2 3); try reflexivity.
    intros row Hrow.
    repeat (apply elem_of_cons in Hrow as [-> | Hrow]; [reflexivity |]).
    inversion Hrow.
  - apply (mean_of_empty_subset_is_nan df None 2 3); try reflexivity.
    intros row Hrow. unfold cell_is. now destruct (default CNull (row !! 2%nat)).
Defined.

Lemma str_split_nonempty (sep : ascii) (s : string) : str_split sep s <> [].
Proof.
  destruct s as [|c s]; cbn; [discriminate |].
  destruct (Ascii.eqb c sep); [discriminate |].
  destruct (str_split sep s); discriminate.
Qed.

(** The values that [explode] and [strip] hand to [value_counts] are the
    tokens of the cells, in order; missing cells contribute none. *)
Lemma exploded_tokens (col : list cell) :
  omap id (map (fmap str_strip)
             (explode (map split_cell
                         (List.filter (fun c => negb (bool_decide (c = CNull))) col))))
  = concat (map tokens_of col).
Proof.
  induction col as [|c col IH]; [reflexivity |].
  destruct c as [|s|q|y m d]; cbn [List.filter bool_decide negb map concat tokens_of].
  - exact IH.
  - rewrite <- IH. clear IH.
    change (bool_decide (CStr s = CNull)) with false. cbn [negb map split_cell].
    unfold explode at 1. cbn [map concat]. fold (explode (map split_cell
      (List.filter (fun c => negb (bool_decide (c = CNull))) col))).
    rewrite map_app, omap_app. f_equal.
    pose proof (str_split_nonempty ","%char s) as Hne.
    destruct (str_split ","%char s) as [|p ps]; [contradiction |].
    assert (Hall : forall l : list string,
               omap id (map (fmap str_strip) (map Some l)) = map str_strip l).
    { intros l. induction l as [|x l IH]; [reflexivity |]. cbn. now f_equal. }
    exact (Hall (p :: ps)).
  - change (bool_decide (CNum q = CNull)) with false. cbn [negb map split_cell].
    unfold explode at 1. cbn [map concat]. exact IH.
  - change (bool_decide (CDate y m d = CNull)) with false. cbn [negb map split_cell].
    unfold explode at 1. cbn [map concat]. exact IH.
Qed.

Lemma value_counts_step_default (s : list (option string)) (m0 : gmap string nat) (t : string) :
  default 0%nat
    (foldl (fun (m : gmap string nat) v =>
              match v with
              | Some t => <[t := S (default 0%nat (m !! t))]> m
              | None => m
              end) m0 s !! t)
  = (default 0%nat (m0 !! t) + length (List.filter (String.eqb t) (omap id s)))%nat.
Proof.
  revert m0. induction s as [|v s IH]; intros m0; cbn; [lia |].
  rewrite IH. destruct v as [u|]; cbn; [| reflexivity].
  destruct (String.eqb_spec t u) as [-> | Hne].
  - rewrite lookup_insert_eq. cbn. lia.
  - rewrite lookup_insert_ne by congruence. reflexivity.
Qed.

Lemma value_counts_step_positive (s : list (option string)) (m0 : gmap string nat) :
  (forall t n, m0 !! t = Some n -> (0 < n)%nat) ->
  forall t n,
    foldl (fun (m : gmap string nat) v =>
             match v with
             | Some t => <[t := S (default 0%nat (m !! t))]> m
             | None => m
             end) m0 s !! t = Some n -> (0 < n)%nat.
Proof.
  revert m0. induction s as [|v s IH]; intros m0 Hpos; cbn; [exact Hpos |].
  apply IH. destruct v as [u|]; [| exact Hpos].
  intros t n. destruct (decide (u = t)) as [-> | Hne].
  - rewrite lookup_insert_eq. intros [= <-]. lia.
  - rewrite lookup_insert_ne by assumption. apply Hpos.
Qed.





(** [value_counts] maps a value to the number of its occurrences, and has
    no entry for a value that does not occur. *)
Lemma value_counts_lookup (s : list (option string)) (t : string) :
  value_counts s !! t
  = match length (List.filter (String.eqb t) (omap id s)) with
    | O => None
    | n => Some n
    end.
Proof.
  pose proof (value_counts_step_default s ∅ t) as Hd.
  pose proof (value_counts_step_positive s ∅) as Hp.
  fold (value_counts s) in Hd, Hp.
  rewrite lookup_empty in Hd. cbn in Hd.
  destruct (value_counts s !! t) as [n|] eqn:Hlk; cbn in Hd.
  - assert (0 < n)%nat by (apply (Hp ltac:(intros ? ?; rewrite lookup_empty; discriminate) t n Hlk)).
    rewrite <- Hd. destruct n; [lia | reflexivity].
  - now rewrite <- Hd.
Qed.

(** The pipeline of lines 128-133 on the column of pollutant cells. *)
Lemma pollutants_with_unfold (dt : dtype) (state_df : frame) (i : nat) :
  positions "prominent_pollutants" (columns state_df) = [i] ->
  let col := map (fun row : list cell => default CNull (row !! i)) (rows state_df) in
  let present := List.filter (fun c => negb (bool_decide (c = CNull))) col in
  pollutants_with dt state_df
  = (_ ← str_accessor dt present;
     Ok (value_counts (map (fmap str_strip) (explode (map split_cell present))))).
Proof.
  intros Hpos col present. unfold pollutants_with, dropna, series.
  rewrite Hpos. cbn [mbind res_bind columns rows]. rewrite Hpos.
  cbn [mbind res_bind].
  now rewrite (map_select (fun c => negb (bool_decide (c = CNull)))
                 (fun row : list cell => default CNull (row !! i))).
Qed.

Lemma counts_lookup (col : list cell) (t : string) :
  value_counts (map (fmap str_strip)
                  (explode (map split_cell
                              (List.filter (fun c => negb (bool_decide (c = CNull))) col)))) !! t
  = match occurrences t col with
    | O => None
    | n => Some n
    end.
Proof. rewrite value_counts_lookup, exploded_tokens. reflexivity. Qed.


Lemma object_values_all_missing (values : list cell) :
  values <> [] -> (forall c, c ∈ values -> c = CNull) -> object_values values = false.
Proof.
  intros Hne Hnull. unfold object_values. destruct values as [|c values]; [contradiction |].
  assert (Hno : forall f : cell -> bool, f CNull = false -> existsb f (c :: values) = false).
  { intros f Hf. destruct (existsb f (c :: values)) eqn:Hex; [| reflexivity].
    apply existsb_exists in Hex as (x & Hx & Hfx).
    rewrite (Hnull x) in Hfx by now apply list_elem_of_In. congruence. }
  now rewrite (Hno is_text eq_refl), (Hno is_number eq_refl).
Qed.

(** Pollutant cells that are strings or missing pass the check of [.str]. *)
Lemma object_values_text (col : list cell) :
  (forall c, c ∈ col -> c = CNull \/ exists s, c = CStr s) ->
  object_values (List.filter (fun c => negb (bool_decide (c = CNull))) col) = true.
Proof.
  intros Htext.
  destruct (List.filter _ col) as [|c l] eqn:Hf; [reflexivity |].
  assert (Hin : In c (List.filter (fun c => negb (bool_decide (c = CNull))) col))
    by (rewrite Hf; left; reflexivity).
  apply filter_In in Hin as [Hin Hc].
  destruct (Htext c) as [-> | [s ->]]; [now apply list_elem_of_In | discriminate |].
  reflexivity.
Qed.

(** The pollutant counts, once the check of [.str] is passed. *)
Lemma pollutants_with_lookup (state_df : frame) (i : nat) :
  positions "prominent_pollutants" (columns state_df) = [i] ->
  object_values (List.filter (fun c => negb (bool_decide (c = CNull)))
                   (map (fun row : list cell => default CNull (row !! i)) (rows state_df)))
  = true ->
  exists m,
    pollutants_with ObjectDtype state_df = Ok m /\
    forall t,
      m !! t
      = match occurrences t (map (fun row => default CNull (row !! i)) (rows state_df)) with
        | O => None
        | n => Some n
        end.
Proof.
  intros Hpos Hstr. rewrite (pollutants_with_unfold ObjectDtype state_df i Hpos).
  cbn zeta. unfold str_accessor. rewrite Hstr. cbn [mbind res_bind].
  eexists. split; [reflexivity |]. intros t. apply counts_lookup.
Qed.




(** * Further properties of the code *)

(** ** The recommendation client: budget, requests, outcomes *)

(** One pass through the loop, by cases on what the transport gives: a 200
    response (the call ends), another status (the loop goes on), an
    exception (the call ends). *)
Ltac one_attempt tr url payload :=
  match goal with
  | |- context [while_retries tr url payload (S ?rem) ?retries ?l] =>
      let r := fresh "r" in
      let e := fresh "e" in
      let Htr := fresh "Htr" in
      let Hst := fresh "Hst" in
      destruct (tr (posts l) url payload) as [r | e] eqn:Htr;
      [ destruct (Z.eq_dec (status_code r) 200) as [Hst | Hst];
        [ rewrite (while_retries_ok tr url payload rem retries l r Htr Hst);
          cbn [snd app]
        | rewrite (while_retries_again tr url payload rem retries l r Htr Hst);
          cbn [app] ]
      | rewrite (while_retries_raise tr url payload rem retries l e Htr);
        cbn [snd app] ]
  end.

(** Every run of the [try] block leaves one of four logs: the attempts made
    so far, each but the last followed by its sleep, all with the same
    request. *)
Lemma try_body_log (key : pyval) (tr : transport) (prompt : string) :
  let url := ApiUrl GEMINI_ENDPOINT key in
  let payload := payload_of prompt in
  let log := snd (try_body key tr prompt []) in
  log = [Post url payload] \/
  log = [Post url payload; Sleep 2; Post url payload] \/
  log = [Post url payload; Sleep 2; Post url payload; Sleep 4; Post url payload] \/
  log = [Post url payload; Sleep 2; Post url payload; Sleep 4; Post url payload; Sleep 8].
Proof.
  intros url payload. unfold try_body. fold url payload.
  change (Z.to_nat (3 - 0)) with 3%nat.
  do 3 (one_attempt tr url payload; [ eauto 6 | | eauto 6 ]).
  cbn. eauto 6.
Qed.

Lemma get_ai_recommendation_log (key : pyval) (tr : transport) (prompt : string) :
  snd (get_ai_recommendation key tr prompt)
  = if truthy key then snd (try_body key tr prompt []) else [].
Proof.
  unfold get_ai_recommendation. destruct (truthy key); cbn [negb]; [| reflexivity].
  destruct (try_body key tr prompt []) as [[v|e] log]; reflexivity.
Qed.

Lemma posts_Post (url : api_url) (payload : pyval) (log : list event) :
  posts (Post url payload :: log) = S (posts log).
Proof. reflexivity. Qed.

Lemma posts_Sleep (seconds : Z) (log : list event) :
  posts (Sleep seconds :: log) = posts log.
Proof. reflexivity. Qed.

Lemma posts_nil : posts [] = 0%nat.
Proof. reflexivity. Qed.

(** X1. Whatever the credential, the transport and the prompt, one call
    makes at most three HTTP requests and sleeps at most 14 seconds in
    total; the sleeps are an initial part of 2, 4, 8, and there is never a
    sleep without a request before it. *)
Theorem call_budget (key : pyval) (tr : transport) (prompt : string) :
  let log := snd (get_ai_recommendation key tr prompt) in
  (posts log <= 3)%nat /\
  sleeps log `prefix_of` [2; 4; 8] /\
  foldr Z.add 0 (sleeps log) <= 14 /\
  (length (sleeps log) <= posts log)%nat.
Proof.
  cbn zeta. rewrite get_ai_recommendation_log.
  assert (Hcases : forall log : list event,
            sleeps log = [] \/ sleeps log = [2] \/ sleeps log = [2; 4] \/
            sleeps log = [2; 4; 8] ->
            (length (sleeps log) <= posts log)%nat -> (posts log <= 3)%nat ->
            (posts log <= 3)%nat /\ sleeps log `prefix_of` [2; 4; 8] /\
            foldr Z.add 0 (sleeps log) <= 14 /\
            (length (sleeps log) <= posts log)%nat).
  { intros log Hs Hlen Hposts. split; [exact Hposts |].
    split; [| split; [| exact Hlen]].
    - destruct Hs as [-> | [-> | [-> | ->]]];
        [exists [2; 4; 8] | exists [4; 8] | exists [8] | exists []]; reflexivity.
    - destruct Hs as [-> | [-> | [-> | ->]]]; cbn; lia. }
  destruct (truthy key).
  - destruct (try_body_log key tr prompt) as [H | [H | [H | H]]];
      cbn zeta in H; rewrite H; apply Hcases;
      rewrite ?posts_Post, ?posts_Sleep, ?posts_nil; cbn [sleeps omap list_omap length];
      try lia; auto 6.
  - apply Hcases; rewrite ?posts_nil; cbn [sleeps omap list_omap length]; try lia; auto 6.
Qed.

(** X2. Every request of a call is the same request: the fixed endpoint
    with the credential as key, and the payload built from the prompt.
    Nothing else reaches the network. *)
Theorem every_request_is_the_same (key : pyval) (tr : transport) (prompt : string) :
  Forall (fun ev =>
            match ev with
            | Post url payload =>
                url = ApiUrl GEMINI_ENDPOINT key /\ payload = payload_of prompt
            | Sleep _ => True
            end)
         (snd (get_ai_recommendation key tr prompt)).
Proof.
  rewrite get_ai_recommendation_log.
  destruct (truthy key); [| constructor].
  destruct (try_body_log key tr prompt) as [H | [H | [H | H]]];
    cbn zeta in H; rewrite H; repeat constructor.
Qed.

(** Use a hypothesis that the pending call is answered by 200 to finish the
    loop. *)
Ltac answer_now Htr Hst :=
  match goal with
  | |- context [while_retries ?tr ?url ?payload (S ?rem) ?retries ?l] =>
      rewrite (while_retries_ok tr url payload rem retries l _ Htr Hst)
  end.

(** Use a hypothesis on the earlier calls to go once round the loop. *)
Ltac retry_once Hbefore n :=
  match goal with
  | |- context [while_retries ?tr ?url ?payload (S ?rem) ?retries ?l] =>
      let r := fresh "r" in
      let Htr := fresh "Htr" in
      let Hst := fresh "Hst" in
      destruct (Hbefore n url payload) as (r & Htr & Hst); [lia |];
      rewrite (while_retries_again tr url payload rem retries l r Htr Hst)
  end.

(** X3. The first response with status 200 ends the call. If it comes at
    attempt [k + 1], after [k] answers with another status, the client has
    made [k + 1] requests and slept 2, 4, ... seconds between them, and the
    value is what the check of that body gives: its text, the fixed "could
    not be generated" string, or, when decoding or the check raises, the
    string of the [except] branch. Later responses are never asked for. *)
Theorem first_200_response_decides
    (key : pyval) (tr : transport) (prompt : string) (k : nat) (r : response) :
  truthy key = true ->
  (k < 3)%nat ->
  (forall n url payload, (n < k)%nat ->
     exists r', tr n url payload = Ok r' /\ status_code r' <> 200) ->
  tr k (ApiUrl GEMINI_ENDPOINT key) (payload_of prompt) = Ok r ->
  status_code r = 200 ->
  fst (get_ai_recommendation key tr prompt)
  = match result ← json r; recommendation_of result with
    | Ok v => v
    | Raise e => PStr (MSG_ERROR_PREFIX +:+ exn_str e)
    end /\
  posts (snd (get_ai_recommendation key tr prompt)) = S k /\
  sleeps (snd (get_ai_recommendation key tr prompt)) = map (fun i => 2 ^ Z.of_nat i) (seq 1 k).
Proof.
  intros Hkey Hk Hbefore Htr Hst.
  unfold get_ai_recommendation, try_body. rewrite Hkey. cbn [negb].
  change (Z.to_nat (3 - 0)) with 3%nat.
  set (url := ApiUrl GEMINI_ENDPOINT key) in *.
  set (payload := payload_of prompt) in *.
  destruct k as [|[|[|k]]]; [| | | lia].
  - answer_now Htr Hst. destruct (json r ≫= _); repeat split.
  - retry_once Hbefore 0%nat. answer_now Htr Hst.
    destruct (json r ≫= _); repeat split.
  - retry_once Hbefore 0%nat. retry_once Hbefore 1%nat. answer_now Htr Hst.
    destruct (json r ≫= _); repeat split.
Qed.

Lemma first_200_response_decides_witness :
  let body := PDict [("candidates",
                PList [PDict [("content",
                  PDict [("parts", PList [PDict [("text", PStr "Use a HEPA filter.")]])])]])] in
  let tr := fun n (_ : api_url) (_ : pyval) =>
              match n with
              | O => Ok (Response 429 (Ok PNone))
              | _ => Ok (Response 200 (Ok body))
              end in
  fst (get_ai_recommendation (PStr "k") tr "which purifier?") = PStr "Use a HEPA filter." /\
  posts (snd (get_ai_recommendation (PStr "k") tr "which purifier?")) = 2%nat /\
  sleeps (snd (get_ai_recommendation (PStr "k") tr "which purifier?")) = [2].
Proof.
  intros body tr.
  apply (first_200_response_decides (PStr "k") tr "which purifier?" 1
           (Response 200 (Ok body))).
  - reflexivity.
  - lia.
  - intros n url payload Hn. assert (n = 0%nat) as -> by lia.
    eexists. split; [reflexivity | simpl; lia].
  - reflexivity.
  - reflexivity.
Defined.

(** The check of lines 31-32 on a body of the expected shape. *)
Lemma recommendation_of_text (d c ct p : list (string * pyval)) (cs ps : list pyval)
    (v : pyval) :
  assoc "candidates" d = Some (PList (PDict c :: cs)) ->
  assoc "content" c = Some (PDict ct) ->
  assoc "parts" ct = Some (PList (PDict p :: ps)) ->
  assoc "text" p = Some v ->
  recommendation_of (PDict d) = Ok v.
Proof.
  intros Hc Hct Hp Hv.
  unfold recommendation_of, shape_ok, py_and.
  cbn [py_get py_item mbind res_bind]. rewrite Hc. cbn.
  rewrite Hct. cbn.
  destruct ct as [|x ct']; [discriminate |].
  cbn [mbind res_bind]. rewrite Hp. cbn. now rewrite Hv.
Qed.

(** X4. A 200 response of the shape
    [{candidates: [{content: {parts: [{text: v}]}}]}] gives back [v] itself
    after one request and no sleep. Further candidates, further parts and
    other fields are ignored, and [v] is returned as it is, whatever its
    type. *)
Theorem text_of_first_part_is_returned
    (key : pyval) (tr : transport) (prompt : string)
    (d c ct p : list (string * pyval)) (cs ps : list pyval) (v : pyval) :
  truthy key = true ->
  tr 0%nat (ApiUrl GEMINI_ENDPOINT key) (payload_of prompt) = Ok (Response 200 (Ok (PDict d))) ->
  assoc "candidates" d = Some (PList (PDict c :: cs)) ->
  assoc "content" c = Some (PDict ct) ->
  assoc "parts" ct = Some (PList (PDict p :: ps)) ->
  assoc "text" p = Some v ->
  get_ai_recommendation key tr prompt
  = (v, [Post (ApiUrl GEMINI_ENDPOINT key) (payload_of prompt)]).
Proof.
  intros Hkey Htr Hc Hct Hp Hv.
  rewrite (first_200_ends_the_call key tr prompt _ Hkey Htr eq_refl).
  cbn [json mbind res_bind].
  now rewrite (recommendation_of_text d c ct p cs ps v Hc Hct Hp Hv).
Qed.

Lemma text_of_first_part_is_returned_witness :
  let body := PDict [("usageMetadata", PDict [("totalTokenCount", PInt 42)]);
                     ("candidates",
                      PList [PDict [("finishReason", PStr "STOP");
                                    ("content",
                                     PDict [("role", PStr "model");
                                            ("parts", PList [PDict [("text", PInt 7)];
                                                             PDict [("text", PStr "second")]])])];
                             PDict []])] in
  get_ai_recommendation (PStr "k") (always (Ok (Response 200 (Ok body)))) "which purifier?"
  = (PInt 7, [Post (ApiUrl GEMINI_ENDPOINT (PStr "k")) (payload_of "which purifier?")]).
Proof.
  intros body.
  eapply (text_of_first_part_is_returned (PStr "k") _ "which purifier?"); reflexivity.
Defined.

(** The check of line 31 fails, without raising, on an object in which
    [candidates], the first candidate's [content] or its [parts] is absent
    or falsy ([None], an empty list, an empty object, an empty string, 0). *)
Lemma recommendation_of_falsy (d : list (string * pyval)) :
  truthy (default PNone (assoc "candidates" d)) = false \/
  (exists c cs, assoc "candidates" d = Some (PList (PDict c :: cs)) /\
     (truthy (default PNone (assoc "content" c)) = false \/
      exists ct, assoc "content" c = Some (PDict ct) /\
        truthy (default PNone (assoc "parts" ct)) = false)) ->
  recommendation_of (PDict d) = Ok (PStr MSG_NOT_GENERATED).
Proof.
  unfold recommendation_of, shape_ok, py_and.
  cbn [py_get py_item mbind res_bind].
  intros [Hc | (c & cs & Hc & [Hct | (ct & Hct & Hp)])].
  - repeat (rewrite Hc; cbn [mbind res_bind]). reflexivity.
  - rewrite Hc. cbn. repeat (rewrite Hct; cbn [mbind res_bind]). reflexivity.
  - rewrite Hc. cbn. rewrite Hct. cbn.
    destruct ct as [|x ct']; [reflexivity |].
    cbn [mbind res_bind]. repeat (rewrite Hp; cbn [mbind res_bind]). reflexivity.
Qed.

(** X5. A 200 response whose body is an object in which [candidates], the
    first candidate's [content], or that content's [parts] is absent or
    falsy gives the fixed "could not be generated" string after one request:
    it is not retried, nothing is slept and nothing is raised. *)
Theorem falsy_field_gives_fixed_string
    (key : pyval) (tr : transport) (prompt : string) (d : list (string * pyval)) :
  truthy key = true ->
  tr 0%nat (ApiUrl GEMINI_ENDPOINT key) (payload_of prompt) = Ok (Response 200 (Ok (PDict d))) ->
  truthy (default PNone (assoc "candidates" d)) = false \/
  (exists c cs, assoc "candidates" d = Some (PList (PDict c :: cs)) /\
     (truthy (default PNone (assoc "content" c)) = false \/
      exists ct, assoc "content" c = Some (PDict ct) /\
        truthy (default PNone (assoc "parts" ct)) = false)) ->
  get_ai_recommendation key tr prompt
  = (PStr MSG_NOT_GENERATED, [Post (ApiUrl GEMINI_ENDPOINT key) (payload_of prompt)]).
Proof.
  intros Hkey Htr Hshape.
  rewrite (first_200_ends_the_call key tr prompt _ Hkey Htr eq_refl).
  cbn [json mbind res_bind].
  now rewrite (recommendation_of_falsy d Hshape).
Qed.

Lemma falsy_field_gives_fixed_string_witness :
  get_ai_recommendation (PStr "k")
    (always (Ok (Response 200 (Ok (PDict [("candidates", PList []);
                                          ("promptFeedback", PDict [("blockReason", PStr "SAFETY")])])))))
    "which purifier?"
  = (PStr MSG_NOT_GENERATED,
     [Post (ApiUrl GEMINI_ENDPOINT (PStr "k")) (payload_of "which purifier?")]) /\
  get_ai_recommendation (PStr "k")
    (always (Ok (Response 200 (Ok (PDict [("candidates",
                 PList [PDict [("finishReason", PStr "SAFETY");
                               ("content", PDict [("role", PStr "model")])]])])))))
    "which purifier?"
  = (PStr MSG_NOT_GENERATED,
     [Post (ApiUrl GEMINI_ENDPOINT (PStr "k")) (payload_of "which purifier?")]).
Proof.
  split.
  - apply (falsy_field_gives_fixed_string (PStr "k") _ "which purifier?"
             [("candidates", PList []);
              ("promptFeedback", PDict [("blockReason", PStr "SAFETY")])]);
      [reflexivity | reflexivity | left; reflexivity].
  - apply (falsy_field_gives_fixed_string (PStr "k") _ "which purifier?"
             [("candidates",
               PList [PDict [("finishReason", PStr "SAFETY");
                             ("content", PDict [("role", PStr "model")])]])]);
      [reflexivity | reflexivity |].
    right. eexists _, _. split; [reflexivity |].
    right. eexists. split; reflexivity.
Defined.

(** ** The loader: what it catches, what it returns *)

(** X6. Only a status from 400 to 599 counts as bad. With any other status
    (a 204 or a 304 as much as a 200) the status line plays no part: the
    outcome is that of parsing and cleaning the body. *)
Theorem only_4xx_5xx_are_bad (r r' : get_response) :
  ~ 400 <= get_status r < 600 ->
  ~ 400 <= get_status r' < 600 ->
  read_csv r = read_csv r' ->
  load_data (Ok r) = load_data (Ok r').
Proof.
  intros Hst Hst' Hcsv. unfold load_data, load_data_try. cbn [mbind res_bind].
  rewrite (raise_for_status_good r Hst), (raise_for_status_good r' Hst').
  cbn [mbind res_bind]. now rewrite Hcsv.
Qed.

Lemma only_4xx_5xx_are_bad_witness :
  load_data (Ok (GetResponse 304 "Not Modified" DATA_URL
                   (Ok (Frame ["Date"; "Note"; "Unit"] [[CStr "01-02-2023"; CNull; CNull]]))))
  = load_data (Ok (GetResponse 200 "OK" "https://cdn.example/aqi.csv"
                     (Ok (Frame ["Date"; "Note"; "Unit"] [[CStr "01-02-2023"; CNull; CNull]])))).
Proof.
  apply only_4xx_5xx_are_bad; [cbn; lia | cbn; lia | reflexivity].
Defined.

(** X7. The handler of line 76 catches nothing but the exceptions of
    [requests]: any other exception, raised by the transport or by
    [pd.read_csv], leaves [load_data] unchanged, and no notice is shown. *)
Theorem other_exceptions_propagate (e : exn) :
  exn_cls e <> RequestException ->
  load_data (Raise e) = Propagated e /\
  forall r, ~ 400 <= get_status r < 600 -> read_csv r = Raise e ->
            load_data (Ok r) = Propagated e.
Proof.
  intros Hcls. split.
  - unfold load_data. cbn. now destruct (decide (exn_cls e = RequestException)).
  - intros r Hst Hcsv. unfold load_data, load_data_try. cbn [mbind res_bind].
    rewrite (raise_for_status_good r Hst). cbn [mbind res_bind]. rewrite Hcsv.
    cbn. now destruct (decide (exn_cls e = RequestException)).
Qed.

Lemma other_exceptions_propagate_witness :
  load_data (Ok (GetResponse 200 "OK" DATA_URL
                   (Raise (Exn OtherException "No columns to parse from file"))))
  = Propagated (Exn OtherException "No columns to parse from file").
Proof.
  apply (other_exceptions_propagate (Exn OtherException "No columns to parse from file"));
    [discriminate | cbn; lia | reflexivity].
Defined.

Lemma select_map_filter {A : Type} (f : A -> bool) (xs : list A) :
  select (map f xs) xs = List.filter f xs.
Proof.
  induction xs as [|x xs IH]; cbn; [reflexivity |].
  destruct (f x); now rewrite IH.
Qed.

Lemma select_length {A B : Type} (mask : list bool) (xs : list A) (ys : list B) :
  length xs = length mask -> length ys = length mask ->
  length (select mask xs) = length (select mask ys).
Proof.
  revert xs ys. induction mask as [|b mask IH]; intros [|x xs] [|y ys]; cbn;
    try discriminate; try reflexivity.
  intros [= Hx] [= Hy]. destruct b; cbn; now rewrite (IH xs ys).
Qed.

Lemma map_res_Forall2 {A B : Type} (f : A -> res B) (l : list A) (l' : list B) :
  map_res f l = Ok l' <-> Forall2 (fun x y => f x = Ok y) l l'.
Proof.
  revert l'. induction l as [|x l IH]; intros l'; cbn.
  - split; [intros [= <-]; constructor | intros H; now inversion H].
  - destruct (f x) as [y|e] eqn:Hx; cbn.
    + destruct (map_res f l) as [ys|e] eqn:Hl; cbn.
      * split.
        -- intros [= <-]. constructor; [assumption | now apply IH].
        -- intros H. inversion H as [|? y' ? ys' Hy Hys]; subst.
           apply IH in Hys. congruence.
      * split; [discriminate |].
        intros H. inversion H as [|? y' ? ys' Hy Hys]; subst.
        apply IH in Hys. discriminate.
    + split; [discriminate |].
      intros H. inversion H; subst. congruence.
Qed.

(** The steps of a load that returns the cleaned table. *)
Lemma load_data_steps (r : get_response) (raw df : frame) :
  load_data (Ok r) = Returned df None ->
  read_csv r = Ok raw ->
  let mask := map (fun c => negb (mem c ["note"; "unit"])) (map str_lower (columns raw)) in
  exists (i : nat) (converted : list (list cell)),
    columns df = List.filter (fun c => negb (mem c ["note"; "unit"])) (map str_lower (columns raw)) /\
    positions "date" (columns df) = [i] /\
    Forall2 (fun row row' => convert_row i (select mask row) = Ok row') (rows raw) converted /\
    rows df = drop_duplicates_from [] converted.
Proof.
  intros Hload Hcsv mask. unfold load_data in Hload.
  destruct (load_data_try (Ok r)) as [df0|e] eqn:Htry;
    [| destruct (decide _); discriminate].
  injection Hload as <-.
  unfold load_data_try in Htry. cbn [mbind res_bind] in Htry.
  destruct (raise_for_status r); cbn [mbind res_bind] in Htry; [| discriminate].
  rewrite Hcsv in Htry. cbn [mbind res_bind] in Htry.
  unfold df_drop in Htry. cbn [columns rows] in Htry.
  destruct (List.filter _ ["note"; "unit"]); cbn [mbind res_bind] in Htry; [| discriminate].
  fold mask in Htry. unfold convert_dates in Htry. cbn [columns rows] in Htry.
  destruct (positions "date" (select mask (map str_lower (columns raw))))
    as [|i [|j js]] eqn:Hpos; try discriminate.
  fold (convert_row i) in Htry.
  destruct (map_res (convert_row i) (map (select mask) (rows raw))) as [converted|e] eqn:Hconv;
    cbn [mbind res_bind] in Htry; [| discriminate].
  injection Htry as <-. cbn [columns rows drop_duplicates].
  exists i, converted.
  assert (Hsel : select mask (map str_lower (columns raw))
                 = List.filter (fun c => negb (mem c ["note"; "unit"]))
                     (map str_lower (columns raw)))
    by apply select_map_filter.
  rewrite Hsel in *. repeat split; try assumption.
  apply map_res_Forall2 in Hconv. now apply Forall2_fmap_l in Hconv.
Qed.

Lemma lower_char_idempotent (c : ascii) : lower_char (lower_char c) = lower_char c.
Proof. destruct c as [[] [] [] [] [] [] [] []]; reflexivity. Qed.

Lemma str_lower_idempotent (s : string) : str_lower (str_lower s) = str_lower s.
Proof.
  induction s as [|c s IH]; cbn; [reflexivity |].
  now rewrite lower_char_idempotent, IH.
Qed.

(** X8. The table a successful load returns has the columns of the file in
    their order, each label in lower case, without those that read [note]
    or [unit] in any mix of cases; exactly one of them is [date]. *)
Theorem returned_columns (r : get_response) (raw df : frame) :
  load_data (Ok r) = Returned df None ->
  read_csv r = Ok raw ->
  columns df
  = List.filter (fun c => negb (mem c ["note"; "unit"])) (map str_lower (columns raw)) /\
  Forall (fun c => str_lower c = c) (columns df) /\
  exists i, positions "date" (columns df) = [i].
Proof.
  intros Hload Hcsv.
  destruct (load_data_steps r raw df Hload Hcsv) as (i & conv & Hcols & Hpos & _).
  split; [exact Hcols |]. split; [| eauto].
  rewrite Hcols. apply Forall_forall. intros c Hc.
  apply list_elem_of_In, filter_In in Hc as [Hc _]. apply in_map_iff in Hc as (c0 & <- & _).
  apply str_lower_idempotent.
Qed.

Lemma returned_columns_witness :
  let raw := Frame ["Date"; "NOTE"; "State"; "unit"; "AQI_Value"]
               [[CStr "01-02-2023"; CNull; CStr "Delhi"; CNull; CNum (Q2Qc 100)]] in
  let df := Frame ["date"; "state"; "aqi_value"]
              [[CDate 2023 2 1; CStr "Delhi"; CNum (Q2Qc 100)]] in
  columns df
  = List.filter (fun c => negb (mem c ["note"; "unit"])) (map str_lower (columns raw)) /\
  Forall (fun c => str_lower c = c) (columns df) /\
  exists i, positions "date" (columns df) = [i].
Proof.
  intros raw df.
  apply (returned_columns (GetResponse 200 "OK" DATA_URL (Ok raw)) raw df);
    vm_compute; reflexivity.
Defined.

Lemma convert_row_length (i : nat) (row row' : list cell) :
  convert_row i row = Ok row' -> length row' = length row.
Proof.
  unfold convert_row. destruct (row !! i) as [c|]; [| now intros [= <-]].
  destruct (to_datetime c) as [c'|e]; cbn; [| discriminate].
  intros [= <-]. apply length_insert.
Qed.

(** X9. Cleaning keeps the table rectangular: if every row of the parsed
    file has one cell per column, so has every row of the table returned. *)
Theorem load_data_keeps_rows_rectangular (r : get_response) (raw df : frame) :
  load_data (Ok r) = Returned df None ->
  read_csv r = Ok raw ->
  well_formed raw ->
  well_formed df.
Proof.
  intros Hload Hcsv Hwf.
  destruct (load_data_steps r raw df Hload Hcsv) as (i & conv & Hcols & _ & Hconv & Hrows).
  unfold well_formed in *. rewrite Hrows, Hcols. apply Forall_forall. intros row' Hrow'.
  apply drop_duplicates_from_spec in Hrow' as [_ Hrow'].
  apply list_elem_of_lookup in Hrow' as [n Hn].
  destruct (Forall2_lookup_r _ _ _ _ _ Hconv Hn) as (row & Hrow & Hcr).
  rewrite (convert_row_length _ _ _ Hcr).
  rewrite <- select_map_filter.
  apply select_length; rewrite !length_map; [| reflexivity].
  rewrite Forall_forall in Hwf. apply Hwf. apply list_elem_of_lookup. eauto.
Qed.

Lemma load_data_keeps_rows_rectangular_witness :
  well_formed (Frame ["date"; "state"] [[CDate 2023 2 1; CStr "Delhi"]; [CNull; CStr "Goa"]]).
Proof.
  apply (load_data_keeps_rows_rectangular
           (GetResponse 200 "OK" DATA_URL
              (Ok (Frame ["Date"; "Note"; "State"; "Unit"]
                     [[CStr "01-02-2023"; CNull; CStr "Delhi"; CNull];
                      [CNull; CStr "n"; CStr "Goa"; CStr "u"]])))
           (Frame ["Date"; "Note"; "State"; "Unit"]
              [[CStr "01-02-2023"; CNull; CStr "Delhi"; CNull];
               [CNull; CStr "n"; CStr "Goa"; CStr "u"]])).
  - vm_compute. reflexivity.
  - reflexivity.
  - repeat constructor.
Defined.

Lemma drop_duplicates_from_sublist (seen rs : list (list cell)) :
  drop_duplicates_from seen rs `sublist_of` rs.
Proof.
  revert seen. induction rs as [|r rs IH]; intros seen; cbn; [constructor |].
  case_bool_decide; [apply sublist_cons | apply sublist_skip]; apply IH.
Qed.

(** X10. A successful load neither invents nor loses a row: the rows
    returned are exactly the rows of the file, each cut to the kept columns
    and with its date converted, and there are no more of them than the
    file has. *)
Theorem returned_rows (r : get_response) (raw df : frame) :
  load_data (Ok r) = Returned df None ->
  read_csv r = Ok raw ->
  let mask := map (fun c => negb (mem c ["note"; "unit"])) (map str_lower (columns raw)) in
  (length (rows df) <= length (rows raw))%nat /\
  exists i, positions "date" (columns df) = [i] /\
    forall row', row' ∈ rows df <->
                 exists row, row ∈ rows raw /\ convert_row i (select mask row) = Ok row'.
Proof.
  intros Hload Hcsv mask.
  destruct (load_data_steps r raw df Hload Hcsv) as (i & conv & _ & Hpos & Hconv & Hrows).
  fold mask in Hconv. split.
  - rewrite Hrows, (Forall2_length _ _ _ Hconv).
    apply sublist_length, drop_duplicates_from_sublist.
  - exists i. split; [exact Hpos |]. intros row'. rewrite Hrows. split.
    + intros Hin. apply drop_duplicates_from_spec in Hin as [_ Hin].
      apply list_elem_of_lookup in Hin as [n Hn].
      destruct (Forall2_lookup_r _ _ _ _ _ Hconv Hn) as (row & Hrow & Hcr).
      exists row. split; [| exact Hcr]. apply list_elem_of_lookup. eauto.
    + intros (row & Hin & Hcr).
      apply drop_duplicates_from_keeps; [| apply not_elem_of_nil].
      apply list_elem_of_lookup in Hin as [n Hn].
      destruct (Forall2_lookup_l _ _ _ _ _ Hconv Hn) as (row2 & Hrow2 & Hcr2).
      apply list_elem_of_lookup. exists n. congruence.
Qed.

Lemma returned_rows_witness :
  let raw := Frame ["Date"; "Note"; "State"; "Unit"]
               [[CStr "01-02-2023"; CNull; CStr "Delhi"; CNull];
                [CStr "1-2-2023"; CStr "n"; CStr "Delhi"; CStr "u"]] in
  let df := Frame ["date"; "state"] [[CDate 2023 2 1; CStr "Delhi"]] in
  (length (rows df) <= length (rows raw))%nat /\
  exists i, positions "date" (columns df) = [i] /\
    forall row', row' ∈ rows df <->
                 exists row, row ∈ rows raw /\
                   convert_row i (select [true; false; true; false] row) = Ok row'.
Proof.
  intros raw df.
  apply (returned_rows (GetResponse 200 "OK" DATA_URL (Ok raw)) raw df);
    vm_compute; reflexivity.
Defined.

Lemma drop_duplicates_from_seen_equiv (seen1 seen2 rs : list (list cell)) :
  (forall x, x ∈ seen1 <-> x ∈ seen2) ->
  drop_duplicates_from seen1 rs = drop_duplicates_from seen2 rs.
Proof.
  revert seen1 seen2. induction rs as [|r rs IH]; intros seen1 seen2 Hsame; cbn; [reflexivity |].
  destruct (decide (r ∈ seen1)) as [Hin | Hnot].
  - assert (Hin2 : r ∈ seen2) by now apply Hsame.
    rewrite !bool_decide_eq_true_2 by assumption. now apply IH.
  - assert (Hnot2 : r ∉ seen2) by now rewrite <- Hsame.
    rewrite !bool_decide_eq_false_2 by assumption.
    f_equal. apply IH. intros x. rewrite !elem_of_cons, (Hsame x). reflexivity.
Qed.

Lemma filter_filter_same {A : Type} (f : A -> bool) (l : list A) :
  List.filter f (List.filter f l) = List.filter f l.
Proof.
  induction l as [|x l IH]; cbn; [reflexivity |].
  destruct (f x) eqn:Hx; cbn; [rewrite Hx; now f_equal | exact IH].
Qed.

(** A row already seen is one more row to leave out. *)
Lemma drop_duplicates_from_cons_seen (s : list cell) (seen rs : list (list cell)) :
  drop_duplicates_from (s :: seen) rs
  = List.filter (fun x => negb (bool_decide (x = s))) (drop_duplicates_from seen rs).
Proof.
  revert seen. induction rs as [|r rs IH]; intros seen; cbn; [reflexivity |].
  destruct (decide (r ∈ seen)) as [Hin | Hnot].
  - rewrite !bool_decide_eq_true_2 by (try right; assumption). apply IH.
  - rewrite (bool_decide_eq_false_2 (r ∈ seen)) by assumption.
    destruct (decide (r = s)) as [-> | Hne].
    + rewrite bool_decide_eq_true_2 by left. cbn.
      rewrite (bool_decide_eq_true_2 (s = s)) by reflexivity. cbn.
      rewrite IH. now rewrite filter_filter_same.
    + rewrite bool_decide_eq_false_2
        by (intros H; apply elem_of_cons in H as [? | ?]; contradiction).
      cbn. rewrite (bool_decide_eq_false_2 (r = s)) by assumption. cbn. f_equal.
      rewrite <- IH. apply drop_duplicates_from_seen_equiv.
      intros x. rewrite !elem_of_cons. tauto.
Qed.

Lemma drop_duplicates_from_NoDup (seen rs : list (list cell)) :
  NoDup rs -> (forall r, r ∈ rs -> r ∉ seen) ->
  drop_duplicates_from seen rs = rs.
Proof.
  revert seen. induction rs as [|r rs IH]; intros seen Hnd Hseen; cbn; [reflexivity |].
  inversion Hnd as [|? ? Hr Hrs]; subst.
  rewrite bool_decide_eq_false_2 by (apply Hseen; left).
  f_equal. apply IH; [assumption |].
  intros x Hx Hin. apply elem_of_cons in Hin as [-> | Hin]; [contradiction |].
  apply (Hseen x); [now right | assumption].
Qed.

(** X11. [drop_duplicates] keeps the first of equal rows and nothing else
    changes: the columns stay, the rows kept are in their old order, every
    row of the table is still present once, the first row always stays and
    later rows equal to it go; doing it twice changes nothing more. *)
Theorem drop_duplicates_keeps_first (df : frame) :
  columns (drop_duplicates df) = columns df /\
  rows (drop_duplicates df) `sublist_of` rows df /\
  NoDup (rows (drop_duplicates df)) /\
  (forall r, r ∈ rows (drop_duplicates df) <-> r ∈ rows df) /\
  drop_duplicates (drop_duplicates df) = drop_duplicates df /\
  (forall r rs, rows df = r :: rs ->
     rows (drop_duplicates df)
     = r :: List.filter (fun x => negb (bool_decide (x = r)))
              (rows (drop_duplicates (Frame (columns df) rs)))).
Proof.
  split; [reflexivity |].
  split; [apply drop_duplicates_from_sublist |].
  split; [apply drop_duplicates_from_spec |].
  split; [| split].
  - intros r. split.
    + intros H. now apply drop_duplicates_from_spec in H.
    + intros H. apply drop_duplicates_from_keeps; [assumption | apply not_elem_of_nil].
  - unfold drop_duplicates. cbn [columns rows]. f_equal.
    apply drop_duplicates_from_NoDup; [apply drop_duplicates_from_spec |].
    intros r _. apply not_elem_of_nil.
  - intros r rs Hrows. unfold drop_duplicates. cbn [columns rows]. rewrite Hrows. cbn.
    rewrite (bool_decide_eq_false_2 (r ∈ [])) by apply not_elem_of_nil.
    f_equal. apply drop_duplicates_from_cons_seen.
Qed.

Lemma drop_duplicates_keeps_first_witness :
  rows (drop_duplicates (Frame ["state"] [[CStr "Goa"]; [CNull]; [CStr "Goa"]; [CNull]]))
  = [CStr "Goa"]
    :: List.filter (fun x => negb (bool_decide (x = [CStr "Goa"])))
         (rows (drop_duplicates (Frame ["state"] [[CNull]; [CStr "Goa"]; [CNull]]))).
Proof.
  apply (proj2 (proj2 (proj2 (proj2 (proj2
           (drop_duplicates_keeps_first
              (Frame ["state"] [[CStr "Goa"]; [CNull]; [CStr "Goa"]; [CNull]]))))))).
  reflexivity.
Defined.

(** ** Dates *)







Lemma digit_bounds (c : ascii) (n : Z) : digit c = Some n -> 0 <= n <= 9.
Proof.
  unfold digit. destruct ((48 <=? code c) && (code c <=? 57)) eqn:H; [| discriminate].
  intros [= <-]. lia.
Qed.

Lemma parse_day_bounds (s : string) (d : Z) : parse_day s = Some d -> 1 <= d <= 31.
Proof.
  destruct s as [|a [|b [|c s]]]; cbn; try discriminate.
  - destruct (digit a) as [n|] eqn:Ha; cbn; [| discriminate].
    apply digit_bounds in Ha. destruct (1 <=? n) eqn:H1; [| discriminate].
    intros [= <-]. lia.
  - destruct (digit b) as [n|] eqn:Hb; cbn; [| discriminate].
    apply digit_bounds in Hb.
    destruct (Ascii.eqb a " ").
    + destruct (1 <=? n) eqn:H1; [| discriminate]. intros [= <-]. lia.
    + destruct (digit a) as [t|] eqn:Ha; cbn; [| discriminate].
      apply digit_bounds in Ha.
      destruct ((t =? 0) && (1 <=? n)) eqn:H0; [intros [= <-]; lia |].
      destruct ((t =? 1) || (t =? 2)) eqn:H12; [intros [= <-]; lia |].
      destruct ((t =? 3) && (n <=? 1)) eqn:H3; [intros [= <-]; lia | discriminate].
Qed.

Lemma parse_month_bounds (s : string) (m : Z) : parse_month s = Some m -> 1 <= m <= 12.
Proof.
  destruct s as [|a [|b [|c s]]]; cbn; try discriminate.
  - destruct (digit a) as [n|] eqn:Ha; cbn; [| discriminate].
    apply digit_bounds in Ha. destruct (1 <=? n) eqn:H1; [| discriminate].
    intros [= <-]. lia.
  - destruct (digit a) as [t|] eqn:Ha; cbn; [| discriminate].
    destruct (digit b) as [n|] eqn:Hb; cbn; [| discriminate].
    apply digit_bounds in Ha, Hb.
    destruct ((t =? 0) && (1 <=? n)) eqn:H0; [intros [= <-]; lia |].
    destruct ((t =? 1) && (n <=? 2)) eqn:H1; [intros [= <-]; lia | discriminate].
Qed.

Lemma parse_year_bounds (s : string) (y : Z) : parse_year s = Some y -> 0 <= y <= 9999.
Proof.
  destruct s as [|a [|b [|c [|d [|e s]]]]]; cbn; try discriminate.
  destruct (digit a) as [na|] eqn:Ha; cbn; [| discriminate].
  destruct (digit b) as [nb|] eqn:Hb; cbn; [| discriminate].
  destruct (digit c) as [nc|] eqn:Hc; cbn; [| discriminate].
  destruct (digit d) as [nd|] eqn:Hd; cbn; [| discriminate].
  apply digit_bounds in Ha, Hb, Hc, Hd. intros [= <-]. lia.
Qed.

Lemma days_in_month_bounds (y m : Z) : 28 <= days_in_month y m <= 31.
Proof.
  unfold days_in_month.
  destruct (m =? 2); [destruct (is_leap y); lia |].
  destruct ((m =? 4) || (m =? 6) || (m =? 9) || (m =? 11)); lia.
Qed.

(** [str_split] makes one piece more than there are separators. *)
Lemma str_split_length (sep : ascii) (s : string) :
  length (str_split sep s) = S (count_char sep s).
Proof.
  induction s as [|c s IH]; cbn; [reflexivity |].
  destruct (Ascii.eqb c sep); cbn; [now rewrite IH |].
  destruct (str_split sep s); cbn in *; [discriminate | exact IH].
Qed.

(** X13. Whatever string [strptime] accepts for [%d-%m-%Y] has exactly two
    hyphens and names a day of the calendar: a year from 1 to 9999, a month
    from 1 to 12 and a day that this month has in this year. *)
Theorem strptime_gives_calendar_dates (s : string) (y m d : Z) :
  strptime s = Some (y, m, d) ->
  count_char "-" s = 2%nat /\
  1 <= y <= 9999 /\ 1 <= m <= 12 /\ 1 <= d <= days_in_month y m.
Proof.
  unfold strptime. intros H.
  pose proof (str_split_length "-" s) as Hlen.
  destruct (str_split "-" s) as [|ds [|ms [|ys [|x l]]]]; try discriminate.
  destruct (parse_day ds) as [d0|] eqn:Hd; cbn in H; [| discriminate].
  destruct (parse_month ms) as [m0|] eqn:Hm; cbn in H; [| discriminate].
  destruct (parse_year ys) as [y0|] eqn:Hy; cbn in H; [| discriminate].
  destruct ((d0 <=? days_in_month y0 m0) && in_timestamp_range y0 m0 d0) eqn:Hok;
    [| discriminate].
  injection H as <- <- <-.
  apply parse_day_bounds in Hd. apply parse_month_bounds in Hm.
  apply parse_year_bounds in Hy.
  apply andb_prop in Hok as [Hdim Hrange].
  unfold in_timestamp_range, date_leb in Hrange.
  cbn in Hlen. repeat split; try lia.
Qed.

Lemma strptime_gives_calendar_dates_witness :
  count_char "-" "29-2-2024" = 2%nat /\
  1 <= 2024 <= 9999 /\ 1 <= 2 <= 12 /\ 1 <= 29 <= days_in_month 2024 2.
Proof.
  apply (strptime_gives_calendar_dates "29-2-2024" 2024 2 29). reflexivity.
Defined.

Lemma str_split_no_sep (sep : ascii) (a : string) :
  str_all (fun c => negb (Ascii.eqb c sep)) a = true ->
  str_split sep a = [a].
Proof.
  induction a as [|c a IH]; cbn; [reflexivity |].
  intros H. apply andb_prop in H as [Hc Ha]. apply negb_true_iff in Hc.
  rewrite Hc, (IH Ha). reflexivity.
Qed.

Lemma str_split_app_sep (sep : ascii) (a rest : string) :
  str_all (fun c => negb (Ascii.eqb c sep)) a = true ->
  str_split sep (a +:+ String sep rest) = a :: str_split sep rest.
Proof.
  induction a as [|c a IH]; intros H.
  - change (EmptyString +:+ String sep rest) with (String sep rest).
    cbn. now rewrite Ascii.eqb_refl.
  - cbn in H. apply andb_prop in H as [Hc Ha]. apply negb_true_iff in Hc.
    change (String c a +:+ String sep rest) with (String c (a +:+ String sep rest)).
    cbn [str_split]. rewrite Hc, (IH Ha). reflexivity.
Qed.

(** The day, month and year fields as [strftime] writes them hold no
    hyphen and are read back by the three field parsers. *)
Lemma show2_day (pad : bool) (d : Z) :
  1 <= d <= 31 ->
  str_all (fun c => negb (Ascii.eqb c "-")) (show2 pad d) = true /\
  parse_day (show2 pad d) = Some d.
Proof.
  intros Hd.
  assert (Hall : forallb (fun d =>
            str_all (fun c => negb (Ascii.eqb c "-")) (show2 pad d)
            && bool_decide (parse_day (show2 pad d) = Some d)) (seqZ 1 31) = true)
    by (destruct pad; vm_compute; reflexivity).
  rewrite forallb_forall in Hall.
  specialize (Hall d). rewrite <- list_elem_of_In, elem_of_seqZ in Hall.
  destruct (andb_prop _ _ (Hall ltac:(lia))) as [H1 H2].
  split; [exact H1 | now apply bool_decide_eq_true in H2].
Qed.

Lemma show2_month (pad : bool) (m : Z) :
  1 <= m <= 12 ->
  str_all (fun c => negb (Ascii.eqb c "-")) (show2 pad m) = true /\
  parse_month (show2 pad m) = Some m.
Proof.
  intros Hm.
  assert (Hall : forallb (fun m =>
            str_all (fun c => negb (Ascii.eqb c "-")) (show2 pad m)
            && bool_decide (parse_month (show2 pad m) = Some m)) (seqZ 1 12) = true)
    by (destruct pad; vm_compute; reflexivity).
  rewrite forallb_forall in Hall.
  specialize (Hall m). rewrite <- list_elem_of_In, elem_of_seqZ in Hall.
  destruct (andb_prop _ _ (Hall ltac:(lia))) as [H1 H2].
  split; [exact H1 | now apply bool_decide_eq_true in H2].
Qed.

Lemma show4_year (y : Z) :
  0 <= y <= 9999 ->
  str_all (fun c => negb (Ascii.eqb c "-")) (show4 y) = true /\
  parse_year (show4 y) = Some y.
Proof.
  intros Hy.
  assert (Hall : forallb (fun y =>
            str_all (fun c => negb (Ascii.eqb c "-")) (show4 y)
            && bool_decide (parse_year (show4 y) = Some y)) (seqZ 0 10000) = true)
    by (vm_compute; reflexivity).
  rewrite forallb_forall in Hall.
  specialize (Hall y). rewrite <- list_elem_of_In, elem_of_seqZ in Hall.
  destruct (andb_prop _ _ (Hall ltac:(lia))) as [H1 H2].
  split; [exact H1 | now apply bool_decide_eq_true in H2].
Qed.

(** X14. Every day of the calendar from 1677-09-22 to 2262-04-11 (the days
    a nanosecond timestamp can hold), written as day-month-year with a
    four-digit year and the day and the month with or without a leading
    zero, is read back by [strptime] as that very date. *)
Theorem strptime_reads_written_dates (pad_day pad_month : bool) (y m d : Z) :
  1 <= m <= 12 -> 1 <= d <= days_in_month y m ->
  in_timestamp_range y m d = true ->
  strptime (format_dmy pad_day pad_month y m d) = Some (y, m, d).
Proof.
  intros Hm Hd Hrange.
  assert (Hy : 1677 <= y <= 2262)
    by (unfold in_timestamp_range, date_leb in Hrange; lia).
  pose proof (days_in_month_bounds y m) as Hdim.
  destruct (show2_day pad_day d ltac:(lia)) as [Hd1 Hd2].
  destruct (show2_month pad_month m Hm) as [Hm1 Hm2].
  destruct (show4_year y ltac:(lia)) as [Hy1 Hy2].
  unfold strptime, format_dmy.
  change ("-" +:+ show2 pad_month m +:+ "-" +:+ show4 y)
    with (String "-" (show2 pad_month m +:+ String "-" (show4 y))).
  rewrite (str_split_app_sep _ _ _ Hd1), (str_split_app_sep _ _ _ Hm1),
    (str_split_no_sep _ _ Hy1).
  rewrite Hd2, Hm2, Hy2. cbn [mbind option_bind].
  rewrite Hrange.
  replace (d <=? days_in_month y m) with true by (symmetry; apply Z.leb_le; lia).
  reflexivity.
Qed.

Lemma strptime_reads_written_dates_witness :
  strptime "29-02-2024" = Some (2024, 2, 29) /\ strptime "22-9-1677" = Some (1677, 9, 22).
Proof.
  split.
  - apply (strptime_reads_written_dates true true 2024 2 29);
      [lia | change (days_in_month 2024 2) with 29; lia | reflexivity].
  - apply (strptime_reads_written_dates true false 1677 9 22);
      [lia | change (days_in_month 1677 9) with 30; lia | reflexivity].
Defined.

(** ** The pages *)

(** X15. The soft failure of the loader does not carry through the pages.
    Whenever [load_data] shows a notice it returns the table without
    columns, and on that table the first use of a column in each page is a
    [KeyError]: the overall mean of line 87 and the filters by state and by
    area of lines 116 and 175. *)
Theorem failed_load_breaks_pages
    (fetch : res get_response) (df : frame) (notice : string) :
  load_data fetch = Returned df (Some notice) ->
  df = empty_frame /\
  overall_mean df = Raise (Exn KeyError "'aqi_value'") /\
  (forall state, where_eq "state" state df = Raise (Exn KeyError "'state'")) /\
  (forall area, avg_aqi_area df area = Raise (Exn KeyError "'area'")).
Proof.
  unfold load_data. destruct (load_data_try fetch) as [df0|e]; [discriminate |].
  destruct (decide _); [| discriminate].
  intros [= <- _]. repeat split.
Qed.

Lemma failed_load_breaks_pages_witness :
  overall_mean empty_frame = Raise (Exn KeyError "'aqi_value'") /\
  avg_aqi_area empty_frame (Some "Rohini") = Raise (Exn KeyError "'area'").
Proof.
  destruct (failed_load_breaks_pages
              (Ok (GetResponse 503 "Service Unavailable" DATA_URL (Ok empty_frame)))
              empty_frame
              ("Error loading data from URL: 503 Server Error: Service Unavailable for url: "
               +:+ DATA_URL) eq_refl) as (_ & Hmean & _ & Harea).
  split; [exact Hmean | exact (Harea (Some "Rohini"))].
Defined.

Lemma where_eq_rows (name : string) (v : option string) (df : frame) (i : nat) :
  positions name (columns df) = [i] ->
  where_eq name v df
  = Ok (Frame (columns df)
          (List.filter (fun row => cell_is v (default CNull (row !! i))) (rows df))).
Proof.
  intros Hpos. unfold where_eq, series. rewrite Hpos. cbn [mbind res_bind].
  do 2 f_equal. induction (rows df) as [|row l IH]; cbn; [reflexivity |].
  destruct (cell_is v (default CNull (row !! i))); now rewrite IH.
Qed.

Lemma series_mean_all_missing (s : list cell) :
  Forall (fun c => c = CNull) s -> series_mean s = Ok NaN.
Proof.
  intros Hall. unfold series_mean.
  assert (Hnum : numbers_of s = Ok []).
  { induction Hall as [|c s -> _ IH]; [reflexivity | exact IH]. }
  now rewrite Hnum.
Qed.

(** X16. The average AQI of an area is [NaN], returned without an
    exception, whenever no row of that area holds an AQI value: be it that
    the area has no row at all, or that every one of its rows has the value
    missing. *)
Theorem avg_aqi_area_nan_without_values (df : frame) (area : option string) (i j : nat) :
  positions "area" (columns df) = [i] ->
  positions "aqi_value" (columns df) = [j] ->
  (forall row, row ∈ rows df ->
     cell_is area (default CNull (row !! i)) = true -> default CNull (row !! j) = CNull) ->
  avg_aqi_area df area = Ok NaN.
Proof.
  intros Harea Haqi Hnone. unfold avg_aqi_area.
  rewrite (where_eq_rows "area" area df i Harea). cbn [mbind res_bind].
  unfold series. cbn [columns rows]. rewrite Haqi. cbn [mbind res_bind].
  apply series_mean_all_missing, Forall_forall.
  intros c Hc. apply list_elem_of_In, in_map_iff in Hc as (row & <- & Hrow).
  apply filter_In in Hrow as [Hrow Hcell].
  apply Hnone; [now apply list_elem_of_In | exact Hcell].
Qed.

Lemma avg_aqi_area_nan_without_values_witness :
  avg_aqi_area (Frame ["area"; "aqi_value"]
                  [[CStr "Rohini"; CNull]; [CStr "Dwarka"; CNum (Q2Qc 90)]; [CStr "Rohini"; CNull]])
    (Some "Rohini") = Ok NaN.
Proof.
  apply (avg_aqi_area_nan_without_values
           (Frame ["area"; "aqi_value"]
              [[CStr "Rohini"; CNull]; [CStr "Dwarka"; CNum (Q2Qc 90)]; [CStr "Rohini"; CNull]])
           (Some "Rohini") 0 1 eq_refl eq_refl).
  intros row Hrow Hcell.
  repeat (apply elem_of_cons in Hrow as [-> | Hrow]; [first [reflexivity | discriminate] |]).
  inversion Hrow.
Defined.

(** X17. Filtering by a selected value keeps the columns and exactly the
    rows whose cell equals the value, in their order; a missing cell equals
    nothing, and with no selection ([None]) no row is kept. Filtering the
    result again by the same value changes nothing. *)
Theorem where_eq_selects (name : string) (v : option string) (df : frame) (i : nat) :
  positions name (columns df) = [i] ->
  exists df',
    where_eq name v df = Ok df' /\
    columns df' = columns df /\
    rows df' `sublist_of` rows df /\
    (forall row : list cell, row ∈ rows df' <->
       row ∈ rows df /\ exists s, v = Some s /\ row !! i = Some (CStr s)) /\
    where_eq name v df' = Ok df'.
Proof.
  intros Hpos. eexists. split; [apply (where_eq_rows name v df i Hpos) |].
  cbn [columns rows]. split; [reflexivity |].
  assert (Hcell : forall row : list cell, cell_is v (default CNull (row !! i)) = true <->
                              exists s, v = Some s /\ row !! i = Some (CStr s)).
  { intros row. unfold cell_is. destruct (row !! i) as [[|t|q|y m d]|]; cbn;
      try (split; [discriminate | intros (s & _ & [=])]).
    destruct v as [s|]; [| split; [discriminate | intros (s & [=] & _)]].
    split.
    - intros H. apply String.eqb_eq in H. subst. eauto.
    - intros (s' & [= <-] & [= ->]). apply String.eqb_refl. }
  split; [| split].
  - induction (rows df) as [|row l IH]; cbn; [constructor |].
    destruct (cell_is v (default CNull (row !! i)));
      [now apply sublist_skip | now apply sublist_cons].
  - intros row. rewrite <- Hcell, list_elem_of_In, filter_In, <- list_elem_of_In.
    reflexivity.
  - match goal with
    | |- where_eq _ _ ?f = _ => rewrite (where_eq_rows name v f i Hpos)
    end.
    cbn [columns rows]. now rewrite filter_filter_same.
Qed.

Lemma where_eq_selects_witness :
  exists df',
    where_eq "state" (Some "Goa")
      (Frame ["state"; "aqi_value"]
         [[CStr "Goa"; CNum (Q2Qc 40)]; [CNull; CNum (Q2Qc 50)]; [CStr "goa"; CNull]]) = Ok df' /\
    rows df' = [[CStr "Goa"; CNum (Q2Qc 40)]].
Proof.
  destruct (where_eq_selects "state" (Some "Goa")
              (Frame ["state"; "aqi_value"]
                 [[CStr "Goa"; CNum (Q2Qc 40)]; [CNull; CNum (Q2Qc 50)]; [CStr "goa"; CNull]])
              0%nat eq_refl) as (df' & Hdf & _).
  exists df'. split; [exact Hdf |].
  vm_compute in Hdf. injection Hdf as <-. reflexivity.
Defined.

Lemma occurrences_Permutation (t : string) (col col' : list cell) :
  Permutation col col' -> occurrences t col = occurrences t col'.
Proof.
  intros Hperm. unfold occurrences.
  induction Hperm as [|c l l' _ IH|c c' l|l1 l2 l3 _ IH1 _ IH2]; cbn.
  - reflexivity.
  - rewrite !List.filter_app, !length_app. now rewrite IH.
  - rewrite !List.filter_app, !length_app. lia.
  - congruence.
Qed.

Lemma filter_Permutation_bool {A : Type} (f : A -> bool) (l l' : list A) :
  Permutation l l' -> Permutation (List.filter f l) (List.filter f l').
Proof.
  intros Hperm. induction Hperm as [|x l l' _ IH|x y l|l1 l2 l3 _ IH1 _ IH2]; cbn.
  - constructor.
  - destruct (f x); [now constructor | exact IH].
  - destruct (f x), (f y); try reflexivity. apply perm_swap.
  - now transitivity (List.filter f l2).
Qed.

Lemma existsb_Permutation {A : Type} (f : A -> bool) (l l' : list A) :
  Permutation l l' -> existsb f l = existsb f l'.
Proof.
  intros Hperm. apply eq_true_iff_eq. rewrite !existsb_exists.
  split; intros (x & Hx & Hs); exists x; split; try assumption.
  - now apply (Permutation_in _ Hperm).
  - now apply (Permutation_in _ (Permutation_sym Hperm)).
Qed.

Lemma object_values_Permutation (col col' : list cell) :
  Permutation col col' -> object_values col = object_values col'.
Proof.
  intros Hperm. unfold object_values.
  destruct col as [|c col], col' as [|c' col'].
  - reflexivity.
  - now apply Permutation_nil_cons in Hperm.
  - symmetry in Hperm. now apply Permutation_nil_cons in Hperm.
  - now rewrite (existsb_Permutation is_text _ _ Hperm),
      (existsb_Permutation is_number _ _ Hperm), (existsb_Permutation is_date _ _ Hperm).
Qed.

Lemma pollutants_with_Permutation (dt : dtype) (cols : list string)
    (rows1 rows2 : list (list cell)) :
  Permutation rows1 rows2 ->
  pollutants_with dt (Frame cols rows1) = pollutants_with dt (Frame cols rows2).
Proof.
  intros Hperm.
  destruct (positions "prominent_pollutants" cols) as [|i [|j js]] eqn:Hpos.
  - unfold pollutants_with, dropna, series. cbn [columns]. now rewrite Hpos.
  - rewrite (pollutants_with_unfold dt (Frame cols rows1) i Hpos),
      (pollutants_with_unfold dt (Frame cols rows2) i Hpos).
    cbn zeta. cbn [rows].
    pose proof (Permutation_map (fun row : list cell => default CNull (row !! i)) Hperm)
      as Hcol.
    assert (Hacc : forall col col', Permutation col col' ->
              str_accessor dt (List.filter (fun c => negb (bool_decide (c = CNull))) col)
              = str_accessor dt (List.filter (fun c => negb (bool_decide (c = CNull))) col')).
    { intros col col' Hp. unfold str_accessor. destruct dt; [| reflexivity].
      now rewrite (object_values_Permutation _ _ (filter_Permutation_bool _ _ _ Hp)). }
    rewrite (Hacc _ _ Hcol).
    destruct (str_accessor dt _); cbn [mbind res_bind]; [| reflexivity].
    f_equal. apply map_eq. intros t. rewrite !counts_lookup.
    now rewrite (occurrences_Permutation t _ _ Hcol).
  - unfold pollutants_with, dropna, series. cbn [columns]. now rewrite Hpos.
Qed.

(** X18. The pollutant counts do not depend on the order of the rows: two
    tables with the same columns whose rows are a rearrangement of each
    other give the same counts (or fail alike when the column is absent). *)
Theorem pollutants_ignore_row_order (cols : list string) (rows1 rows2 : list (list cell)) :
  Permutation rows1 rows2 ->
  pollutants (Frame cols rows1) = pollutants (Frame cols rows2).
Proof.
  intros Hperm. unfold pollutants, series. cbn [columns rows].
  destruct (positions "prominent_pollutants" cols) as [|i [|j js]]; try reflexivity.
  cbn [mbind res_bind].
  unfold column_dtype.
  rewrite (object_values_Permutation _ _
             (Permutation_map (fun row : list cell => default CNull (row !! i)) Hperm)).
  now apply pollutants_with_Permutation.
Qed.

Lemma pollutants_ignore_row_order_witness :
  pollutants (Frame ["prominent_pollutants"] [[CStr "PM10,O3"]; [CNull]; [CStr "O3"]])
  = pollutants (Frame ["prominent_pollutants"] [[CStr "O3"]; [CStr "PM10,O3"]; [CNull]]).
Proof.
  apply pollutants_ignore_row_order.
  apply (Permutation_cons_app [[CStr "O3"]] [[CNull]] [CStr "PM10,O3"]).
  apply perm_swap.
Defined.

Lemma tokens_of_nil_iff (c : cell) : tokens_of c = [] <-> forall s, c <> CStr s.
Proof.
  destruct c as [|s|q|y m d]; cbn; try (split; [discriminate | reflexivity]).
  pose proof (str_split_nonempty "," s) as Hne.
  destruct (str_split "," s); [contradiction |]. cbn.
  split; [discriminate | intros H; now destruct (H s)].
Qed.

Lemma occurrences_zero_iff (t : string) (col : list cell) :
  occurrences t col = 0%nat <-> t ∉ concat (map tokens_of col).
Proof.
  unfold occurrences. generalize (concat (map tokens_of col)). intros l.
  induction l as [|x l IH]; cbn.
  - split; [intros _; apply not_elem_of_nil | reflexivity].
  - destruct (String.eqb_spec t x) as [-> | Hne]; cbn.
    + split; [discriminate | intros H; exfalso; apply H; left].
    + rewrite IH, not_elem_of_cons. tauto.
Qed.

Lemma blank_is_no_comma (c : ascii) : is_space c = true -> Ascii.eqb c "," = false.
Proof.
  destruct c as [[] [] [] [] [] [] [] []]; vm_compute; intros H;
    first [discriminate H | reflexivity].
Qed.

Lemma blank_string_token (s : string) :
  str_all is_space s = true -> tokens_of (CStr s) = [""].
Proof.
  intros Hs. cbn [tokens_of].
  assert (Hsplit : str_split "," s = [s]).
  { apply str_split_no_sep. induction s as [|c s IH]; cbn in *; [reflexivity |].
    apply andb_prop in Hs as [Hc Hs]. now rewrite (blank_is_no_comma c Hc), IH. }
  rewrite Hsplit. cbn. f_equal. unfold str_strip. clear Hsplit.
  assert (Hl : lstrip s = "").
  { induction s as [|c s IH]; cbn in *; [reflexivity |].
    apply andb_prop in Hs as [Hc Hs]. rewrite Hc. now apply IH. }
  now rewrite Hl.
Qed.

(** X19. For a row set whose pollutant cells are strings or missing, cut
    from a table whose pollutant column has the object dtype, the counts
    are empty, and the page says that no pollutant data is available (line
    135), exactly when no row of the set holds a pollutant string. A string
    of nothing but whitespace is enough to make them non-empty: it counts
    as the empty token. A table of its own that has rows but no pollutant
    string never gets that far: its column is numeric and line 130 raises
    [AttributeError]. *)
Theorem pollutants_empty_iff (state_df : frame) (i : nat) :
  positions "prominent_pollutants" (columns state_df) = [i] ->
  (forall (row : list cell) c, row ∈ rows state_df -> row !! i = Some c ->
     c = CNull \/ exists s, c = CStr s) ->
  (pollutants_with ObjectDtype state_df = Ok ∅ <->
   forall (row : list cell) s, row ∈ rows state_df -> row !! i <> Some (CStr s)) /\
  (forall (row : list cell) s, row ∈ rows state_df -> row !! i = Some (CStr s) ->
     str_all is_space s = true ->
     exists m n, pollutants_with ObjectDtype state_df = Ok m /\ m !! "" = Some (S n)) /\
  (rows state_df <> [] ->
   (forall (row : list cell) s, row ∈ rows state_df -> row !! i <> Some (CStr s)) ->
   exists e, pollutants state_df = Raise e /\ exn_cls e = AttributeError).
Proof.
  intros Hpos Htext.
  assert (Hcoltext : forall c,
            c ∈ map (fun row : list cell => default CNull (row !! i)) (rows state_df) ->
            c = CNull \/ exists s, c = CStr s).
  { intros c Hc. apply list_elem_of_fmap in Hc as (row & -> & Hrow).
    destruct (row !! i) as [c|] eqn:Hri; [exact (Htext row c Hrow Hri) | now left]. }
  destruct (pollutants_with_lookup state_df i Hpos (object_values_text _ Hcoltext))
    as (m & Hm & Hlk).
  rewrite Hm.
  assert (Hcell : forall (row : list cell) s t,
            row ∈ rows state_df -> row !! i = Some (CStr s) -> t ∈ tokens_of (CStr s) ->
            exists n, m !! t = Some (S n)).
  { intros row s t Hrow Hc Ht. rewrite Hlk.
    destruct (occurrences t _) as [|n] eqn:Hocc; [| eauto].
    exfalso. apply occurrences_zero_iff in Hocc. apply Hocc.
    apply list_elem_of_In, in_concat. exists (tokens_of (CStr s)).
    split; [| now apply list_elem_of_In].
    apply in_map, in_map_iff. exists row. rewrite Hc.
    split; [reflexivity | now apply list_elem_of_In]. }
  split; [| split].
  - split.
    + intros [= ->] row s Hrow Hc.
      destruct (tokens_of (CStr s)) as [|t ts] eqn:Htok.
      * exact (proj1 (tokens_of_nil_iff (CStr s)) Htok s eq_refl).
      * destruct (Hcell row s t Hrow Hc) as [n Hn]; [rewrite Htok; left |].
        rewrite lookup_empty in Hn. discriminate.
    + intros Hnone. f_equal. apply map_eq. intros t. rewrite Hlk, lookup_empty.
      destruct (occurrences t _) as [|n] eqn:Hocc; [reflexivity |].
      exfalso.
      destruct (decide (t ∈ concat (map tokens_of
                  (map (fun row : list cell => default CNull (row !! i)) (rows state_df)))))
        as [Ht | Ht]; [| apply occurrences_zero_iff in Ht; lia].
      apply list_elem_of_In, in_concat in Ht as (toks & Htoks & Ht).
      apply in_map_iff in Htoks as (c & <- & Hc).
      apply in_map_iff in Hc as (row & <- & Hrow).
      destruct (row !! i) as [[|s|q|y mo d]|] eqn:Hri; cbn in Ht; try contradiction.
      apply (Hnone row s); [now apply list_elem_of_In | exact Hri].
  - intros row s Hrow Hc Hblank.
    destruct (Hcell row s "" Hrow Hc) as [n Hn].
    + rewrite (blank_string_token s Hblank). left.
    + eauto.
  - intros Hrows Hnone. unfold pollutants, series. rewrite Hpos. cbn [mbind res_bind].
    unfold column_dtype. rewrite object_values_all_missing.
    + unfold pollutants_with, dropna, series. rewrite Hpos.
      cbn [mbind res_bind columns rows]. rewrite Hpos. cbn. eauto.
    + destruct (rows state_df); [contradiction | discriminate].
    + intros c Hc. destruct (Hcoltext c Hc) as [-> | [s ->]]; [reflexivity |].
      exfalso. apply list_elem_of_fmap in Hc as (row & Hc & Hrow).
      apply (Hnone row s Hrow).
      destruct (row !! i) as [c|]; cbn in Hc; [now subst | discriminate].
Qed.

Lemma pollutants_empty_iff_witness :
  pollutants_with ObjectDtype
    (Frame ["state"; "prominent_pollutants"]
       [[CStr "Goa"; CNull]; [CStr "Goa"; CNull]]) = Ok ∅ /\
  (exists m n,
     pollutants_with ObjectDtype
       (Frame ["state"; "prominent_pollutants"]
          [[CStr "Goa"; CNull]; [CStr "Goa"; CStr "  "]]) = Ok m /\
     m !! "" = Some (S n)) /\
  (exists e,
     pollutants (Frame ["state"; "prominent_pollutants"]
                   [[CStr "Goa"; CNull]; [CStr "Delhi"; CNull]]) = Raise e /\
     exn_cls e = AttributeError).
Proof.
  assert (Htext : forall rs : list (list cell),
            Forall (fun row => row !! 1%nat = Some CNull \/
                               exists s, row !! 1%nat = Some (CStr s)) rs ->
            forall (row : list cell) c, row ∈ rs -> row !! 1%nat = Some c ->
              c = CNull \/ exists s, c = CStr s).
  { intros rs Hall row c Hrow Hc. rewrite Forall_forall in Hall.
    destruct (Hall row Hrow) as [H | [s H]]; rewrite H in Hc; injection Hc as <-; eauto. }
  split; [| split].
  - apply (proj2 (proj1 (pollutants_empty_iff
                    (Frame ["state"; "prominent_pollutants"]
                       [[CStr "Goa"; CNull]; [CStr "Goa"; CNull]]) 1%nat eq_refl
                    (Htext [[CStr "Goa"; CNull]; [CStr "Goa"; CNull]]
                       ltac:(repeat (apply List.Forall_cons;
                                     [first [left; reflexivity | right; eexists; reflexivity] |]);
                             apply List.Forall_nil))))).
    intros row s Hrow.
    repeat (apply elem_of_cons in Hrow as [-> | Hrow]; [discriminate |]).
    inversion Hrow.
  - apply (proj1 (proj2 (pollutants_empty_iff
                    (Frame ["state"; "prominent_pollutants"]
                       [[CStr "Goa"; CNull]; [CStr "Goa"; CStr "  "]]) 1%nat eq_refl
                    (Htext [[CStr "Goa"; CNull]; [CStr "Goa"; CStr "  "]]
                       ltac:(repeat (apply List.Forall_cons;
                                     [first [left; reflexivity | right; eexists; reflexivity] |]);
                             apply List.Forall_nil))))
             [CStr "Goa"; CStr "  "] "  ").
    + right. left.
    + reflexivity.
    + reflexivity.
  - apply (proj2 (proj2 (pollutants_empty_iff
                    (Frame ["state"; "prominent_pollutants"]
                       [[CStr "Goa"; CNull]; [CStr "Delhi"; CNull]]) 1%nat eq_refl
                    (Htext [[CStr "Goa"; CNull]; [CStr "Delhi"; CNull]]
                       ltac:(repeat (apply List.Forall_cons;
                                     [first [left; reflexivity | right; eexists; reflexivity] |]);
                             apply List.Forall_nil))))).
    + discriminate.
    + intros row s Hrow.
      repeat (apply elem_of_cons in Hrow as [-> | Hrow]; [discriminate |]).
      inversion Hrow.
Defined.

(** ** The select boxes *)

Lemma unique_from_spec (seen l : list value) :
  NoDup (unique_from seen l) /\
  forall x, x ∈ unique_from seen l <-> x ∈ l /\ x ∉ seen.
Proof.
  revert seen. induction l as [|y l IH]; intros seen; cbn.
  - split; [constructor |]. intros x. split; [intros H; inversion H | intros [H _]; inversion H].
  - destruct (decide (y ∈ seen)) as [Hin | Hnot].
    + rewrite bool_decide_eq_true_2 by assumption.
      destruct (IH seen) as [Hnd Hmem]. split; [exact Hnd |].
      intros x. rewrite Hmem, elem_of_cons. split; [tauto |].
      intros [[-> | Hx] Hs]; [contradiction | tauto].
    + rewrite bool_decide_eq_false_2 by assumption.
      destruct (IH (y :: seen)) as [Hnd Hmem]. split.
      * constructor; [| exact Hnd]. rewrite Hmem, elem_of_cons. tauto.
      * intros x. rewrite !elem_of_cons, Hmem, elem_of_cons.
        destruct (decide (x = y)) as [-> | Hne]; tauto.
Qed.

(** Of two different values that compare, one is below the other. *)
Lemma value_lt_total (x y : value) :
  value_lt x y = Ok false -> x <> y -> value_lt y x = Ok true.
Proof.
  destruct x as [s|p|y1 m1 d1], y as [t|q|y2 m2 d2]; cbn; try discriminate.
  - intros [= H] Hne. f_equal.
    rewrite (String.compare_antisym s t) in H.
    destruct (String.compare t s) eqn:Hc; cbn in H; [| reflexivity | discriminate].
    apply String.compare_eq_iff in Hc. congruence.
  - intros [= H] Hne. f_equal. apply bool_decide_eq_false in H.
    apply bool_decide_eq_true. destruct (Qc_dec p q) as [[Hlt | Hgt] | Heq];
      [contradiction | exact Hgt | congruence].
  - intros [= H] Hne. f_equal.
    assert (Hd : ~ (y1 = y2 /\ m1 = m2 /\ d1 = d2)) by (intros (-> & -> & ->); congruence).
    lia.
Qed.

Lemma insert_sorted_Permutation (x : value) (l l' : list value) :
  insert_sorted x l = Ok l' -> Permutation (x :: l) l'.
Proof.
  revert l'. induction l as [|y l IH]; intros l'; cbn.
  - now intros [= <-].
  - destruct (value_lt x y) as [[|]|e]; cbn; try discriminate.
    + now intros [= <-].
    + destruct (insert_sorted x l) as [rest|e]; cbn; [| discriminate].
      intros [= <-]. rewrite perm_swap. constructor. now apply IH.
Qed.

Lemma insert_sorted_Sorted (x : value) (l l' : list value) :
  Sorted (fun a b => value_lt a b = Ok true) l -> x ∉ l ->
  insert_sorted x l = Ok l' ->
  Sorted (fun a b => value_lt a b = Ok true) l'.
Proof.
  revert l'. induction l as [|y l IH]; intros l' Hs Hx; cbn.
  - intros [= <-]. repeat constructor.
  - destruct (value_lt x y) as [[|]|e] eqn:Hxy; cbn; try discriminate.
    + intros [= <-]. constructor; [exact Hs | now constructor].
    + destruct (insert_sorted x l) as [rest|e] eqn:Hins; cbn; [| discriminate].
      intros [= <-]. inversion Hs as [|? ? Hl Hhd]; subst.
      apply not_elem_of_cons in Hx as [Hne Hx].
      constructor; [now apply IH |].
      assert (Hyx : value_lt y x = Ok true) by now apply value_lt_total.
      destruct l as [|z l]; cbn in Hins.
      * injection Hins as <-. now constructor.
      * destruct (value_lt x z) as [[|]|e]; cbn in Hins; try discriminate.
        -- injection Hins as <-. now constructor.
        -- destruct (insert_sorted x l); cbn in Hins; [| discriminate].
           injection Hins as <-. inversion Hhd; subst. now constructor.
Qed.

Lemma sorted_spec (l l' : list value) :
  sorted l = Ok l' ->
  Permutation l l' /\ (NoDup l -> Sorted (fun a b => value_lt a b = Ok true) l').
Proof.
  revert l'. induction l as [|x l IH]; intros l'; cbn.
  - intros [= <-]. split; [constructor | constructor].
  - destruct (sorted l) as [s|e]; cbn; [| discriminate].
    intros Hins. destruct (IH s eq_refl) as [Hperm Hsorted]. split.
    + rewrite <- (insert_sorted_Permutation x s l' Hins). now constructor.
    + intros Hnd. inversion Hnd as [|? ? Hx Hl]; subst.
      apply (insert_sorted_Sorted x s l'); [now apply Hsorted | | exact Hins].
      now rewrite <- Hperm.
Qed.

Lemma sorted_strings (l : list value) :
  Forall (fun v => exists s, v = VStr s) l -> exists l', sorted l = Ok l'.
Proof.
  induction l as [|x l IH]; intros Hall; cbn; [eauto |].
  inversion Hall as [|? ? [s ->] Hl]; subst.
  destruct (IH Hl) as [srt Hsrt]. rewrite Hsrt. cbn.
  assert (Hs : Forall (fun v => exists s, v = VStr s) srt).
  { apply sorted_spec in Hsrt as [Hperm _]. now rewrite <- Hperm. }
  clear -Hs. induction srt as [|y srt IH]; cbn; [eauto |].
  inversion Hs as [|? ? [t ->] Hsrt]; subst. cbn.
  destruct (String.compare s t); cbn; eauto;
    destruct (IH Hsrt) as [rest ->]; cbn; eauto.
Qed.

(** What the options of a select box are, once the column is found. *)
Lemma options_members (name : string) (df : frame) (i : nat) (opts : list value) :
  positions name (columns df) = [i] ->
  options name df = Ok opts ->
  NoDup opts /\
  Sorted (fun a b => value_lt a b = Ok true) opts /\
  forall v, v ∈ opts <->
            exists row : list cell, row ∈ rows df /\ value_of (default CNull (row !! i)) = Some v.
Proof.
  intros Hpos. unfold options, series. rewrite Hpos. cbn [mbind res_bind].
  intros Hsorted. apply sorted_spec in Hsorted as [Hperm Hsrt].
  destruct (unique_from_spec [] (omap value_of
              (map (fun row : list cell => default CNull (row !! i)) (rows df)))) as [Hnd Hmem].
  split; [now rewrite <- Hperm |]. split; [now apply Hsrt |].
  intros v. rewrite <- Hperm, Hmem, list_elem_of_omap. split.
  - intros [(c & Hc & Hv) _]. apply list_elem_of_fmap in Hc as (row & -> & Hrow). eauto.
  - intros (row & Hrow & Hv). split; [| apply not_elem_of_nil].
    exists (default CNull (row !! i)). split; [| exact Hv].
    apply list_elem_of_fmap. eauto.
Qed.

(** X20. The options of a select box are the values of the column that are
    not missing, each once, in increasing order. For a column of strings
    (and missing values) they are always found; strings compare by code
    point, so capitals come before small letters. *)
Theorem options_are_the_sorted_values (name : string) (df : frame) (i : nat) :
  positions name (columns df) = [i] ->
  (forall opts, options name df = Ok opts ->
     NoDup opts /\
     Sorted (fun a b => value_lt a b = Ok true) opts /\
     forall v, v ∈ opts <->
               exists row : list cell,
                 row ∈ rows df /\ value_of (default CNull (row !! i)) = Some v) /\
  ((forall (row : list cell) c, row ∈ rows df -> row !! i = Some c ->
      c = CNull \/ exists s, c = CStr s) ->
   exists opts, options name df = Ok opts).
Proof.
  intros Hpos. split; [intros opts; apply options_members; exact Hpos |].
  intros Hstr. unfold options, series. rewrite Hpos. cbn [mbind res_bind].
  apply sorted_strings. apply Forall_forall. intros v Hv.
  apply unique_from_spec in Hv as [Hv _].
  apply list_elem_of_omap in Hv as (c & Hc & Hv).
  apply list_elem_of_fmap in Hc as (row & -> & Hrow).
  destruct (row !! i) as [c|] eqn:Hri; [| discriminate].
  destruct (Hstr row c Hrow Hri) as [-> | [s ->]]; [discriminate |].
  cbn in Hv. injection Hv as <-. eauto.
Qed.

Lemma options_are_the_sorted_values_witness :
  exists opts,
    options "state" (Frame ["state"; "aqi_value"]
                       [[CStr "goa"; CNull]; [CNull; CNull]; [CStr "Delhi"; CNull];
                        [CStr "goa"; CNull]]) = Ok opts /\
    NoDup opts /\ Sorted (fun a b => value_lt a b = Ok true) opts.
Proof.
  destruct (options_are_the_sorted_values "state"
              (Frame ["state"; "aqi_value"]
                 [[CStr "goa"; CNull]; [CNull; CNull]; [CStr "Delhi"; CNull];
                  [CStr "goa"; CNull]]) 0%nat eq_refl) as [Hspec Hex].
  destruct Hex as [opts Hopts].
  - intros row c Hrow Hc.
    repeat (apply elem_of_cons in Hrow as [-> | Hrow];
            [injection Hc as <-; eauto |]).
    inversion Hrow.
  - exists opts. split; [exact Hopts |].
    destruct (Hspec opts Hopts) as (Hnd & Hsrt & _). split; assumption.
Defined.

(** X21. Every state (or area) offered by the select box has rows: the
    table filtered by it is never empty, so "No data available" is not
    shown for it. When there are no options at all, the column holds
    nothing but missing values and every filter comes out empty. *)
Theorem every_option_has_rows (name : string) (df : frame) (i : nat) (opts : list value) :
  positions name (columns df) = [i] ->
  options name df = Ok opts ->
  (forall s, VStr s ∈ opts ->
     exists sub, where_eq name (Some s) df = Ok sub /\ rows sub <> []) /\
  (opts = [] ->
     forall v, exists sub, where_eq name v df = Ok sub /\ rows sub = []).
Proof.
  intros Hpos Hopts.
  destruct (options_members name df i opts Hpos Hopts) as (_ & _ & Hmem).
  split.
  - intros s Hs. apply Hmem in Hs as (row & Hrow & Hv).
    eexists. split; [apply (where_eq_rows name (Some s) df i Hpos) |].
    cbn [rows]. intros Hnil.
    assert (Hin : In row (List.filter
                    (fun row : list cell => cell_is (Some s) (default CNull (row !! i)))
                    (rows df))).
    { apply filter_In. split; [now apply list_elem_of_In |].
      destruct (default CNull (row !! i)) as [|t|q|y m d]; try discriminate.
      cbn in Hv. injection Hv as ->. apply String.eqb_refl. }
    rewrite Hnil in Hin. inversion Hin.
  - intros -> v. eexists. split; [apply (where_eq_rows name v df i Hpos) |].
    cbn [rows].
    assert (Hnull : Forall (fun row : list cell => cell_is v (default CNull (row !! i)) = false)
                      (rows df)).
    { apply Forall_forall. intros row Hrow.
      destruct (value_of (default CNull (row !! i))) as [w|] eqn:Hw.
      - exfalso. assert (Hin : w ∈ @nil value) by (apply Hmem; eauto).
        inversion Hin.
      - destruct (default CNull (row !! i)); try discriminate. reflexivity. }
    clear Hmem. induction Hnull as [|row l Hrow _ IH]; [reflexivity |].
    cbn [List.filter]. rewrite Hrow. exact IH.
Qed.

Lemma every_option_has_rows_witness :
  exists sub,
    where_eq "state" (Some "Goa")
      (Frame ["state"; "aqi_value"]
         [[CStr "Goa"; CNum (Q2Qc 40)]; [CNull; CNum (Q2Qc 50)]; [CStr "Delhi"; CNull]]) = Ok sub /\
    rows sub <> [].
Proof.
  apply (proj1 (every_option_has_rows "state"
                  (Frame ["state"; "aqi_value"]
                     [[CStr "Goa"; CNum (Q2Qc 40)]; [CNull; CNum (Q2Qc 50)];
                      [CStr "Delhi"; CNull]])
                  0%nat [VStr "Delhi"; VStr "Goa"] eq_refl eq_refl) "Goa").
  right. left.
Defined.
